(** * Battleship field validation: a shallow embedding of [main.py]

    The program validates a battleship board given as a Python list of row
    lists of integers.  Three validator classes are run in a fixed order by
    [validate_battlefield]; a [ValueError] raised by any of them is caught,
    logged, and turned into [False].

    Python lists are mutable objects, and the fleet counter works on a
    [deepcopy] of the caller's board which it then mutates.  Rows are
    therefore modelled as objects of a store ([heap]), a board is the list of
    the references its outer list holds, and cell assignment goes through the
    store.  Indices are Python integers ([Z]); list indexing follows Python
    (negative indices count from the end, anything else out of range raises
    [IndexError]). *)

From Stdlib Require Import ZArith Lia.
From stdpp Require Import base numbers list strings pretty gmap.

Local Open Scope Z_scope.

(** ** Exceptions and results *)

Inductive exn :=
  | ValueError (msg : string)
  | IndexError
  | KeyError.

Inductive res (A : Type) :=
  | Ok (a : A)
  | Raise (e : exn).
Arguments Ok {A} a.
Arguments Raise {A} e.

Definition res_bind {A B} (r : res A) (k : A → res B) : res B :=
  match r with
  | Ok a => k a
  | Raise e => Raise e
  end.

#[global] Instance res_ret : MRet res := @Ok.
#[global] Instance res_mbind : MBind res := λ A B k r, res_bind r k.

(** Stateful computations that may raise; the state reached when the
    exception is raised is kept (Python does not roll back mutations). *)
Definition M (S A : Type) : Type := S → res A * S.

Definition m_bind {S A B} (c : M S A) (k : A → M S B) : M S B :=
  λ s, match c s with
       | (Ok a, s') => k a s'
       | (Raise e, s') => (Raise e, s')
       end.

#[global] Instance m_ret {S} : MRet (M S) := λ A a s, (Ok a, s).
#[global] Instance m_mbind {S} : MBind (M S) := λ A B k c, m_bind c k.

Definition raise {S A} (e : exn) : M S A := λ s, (Raise e, s).

(** Python's [for x in xs: body], for a body that may raise. *)
Fixpoint for_each {S A} (xs : list A) (body : A → M S unit) : M S unit :=
  match xs with
  | [] => mret tt
  | x :: xs' => _ ← body x; for_each xs' body
  end.

Fixpoint res_for_each {A} (xs : list A) (body : A → res unit) : res unit :=
  match xs with
  | [] => Ok tt
  | x :: xs' => _ ← body x; res_for_each xs' body
  end.

Fixpoint res_map {A B} (f : A → res B) (xs : list A) : res (list B) :=
  match xs with
  | [] => Ok []
  | x :: xs' => y ← f x; ys ← res_map f xs'; Ok (y :: ys)
  end.

(** ** Python values and lists *)

(** Truth value of an integer. *)
Definition truthy (z : Z) : bool := negb (z =? 0).

(** [range(a, b)] *)
Definition range (a b : Z) : list Z := seqZ a (b - a).

(** [enumerate(xs)] *)
Definition enumerate {A} (xs : list A) : list (Z * A) :=
  zip (seqZ 0 (Z.of_nat (length xs))) xs.

(** Position designated by a Python index in a list of length [n]. *)
Definition py_index (n : nat) (i : Z) : option nat :=
  let k := if i <? 0 then i + Z.of_nat n else i in
  if (0 <=? k) && (k <? Z.of_nat n) then Some (Z.to_nat k) else None.

(** [xs[i]] *)
Definition getitem {A} (xs : list A) (i : Z) : res A :=
  match py_index (length xs) i with
  | Some k => match xs !! k with Some x => Ok x | None => Raise IndexError end
  | None => Raise IndexError
  end.

(** [xs[i] = v], giving the list's new contents. *)
Definition setitem {A} (xs : list A) (i : Z) (v : A) : res (list A) :=
  match py_index (length xs) i with
  | Some k => Ok (<[k:=v]> xs)
  | None => Raise IndexError
  end.

(** ** The store *)

(** Row objects live in the store; a reference is a position in it.  The
    outer list of a board is never assigned to and is kept as the list of row
    references it holds. *)
Abbreviation loc := nat (only parsing).
Abbreviation heap := (list (list Z)) (only parsing).
Abbreviation board := (list nat) (only parsing).

(** Every reference designates a live object. *)
Definition wf_board (h : heap) (b : board) : Prop :=
  Forall (λ r, (r < length h)%nat) b.

(** The matrix a board denotes in a store. *)
Definition contents (h : heap) (b : board) : list (list Z) :=
  (λ r, h !!! r) <$> b.

(** A board every row of which is an object of its own. *)
Definition alloc_board (m : list (list Z)) : heap * board :=
  (m, seq 0 (length m)).

(** [self.board[i][j]] *)
Definition read_cell (h : heap) (b : board) (i j : Z) : res Z :=
  r ← getitem b i; getitem (h !!! r) j.

(** [self.board[i][j] = v] *)
Definition write_cell (b : board) (i j : Z) (v : Z) : M heap unit :=
  λ h, match getitem b i with
       | Ok r => match setitem (h !!! r) j v with
                 | Ok row' => (Ok tt, <[r:=row']> h)
                 | Raise e => (Raise e, h)
                 end
       | Raise e => (Raise e, h)
       end.

(** [copy.deepcopy(board)]: a new outer list whose rows are new objects.  The
    memo table maps each row object already copied to its copy, so rows that
    are one object in the original are one object in the copy. *)
Fixpoint deepcopy_rows (memo : gmap loc loc) (b : board) (h : heap) : board * heap :=
  match b with
  | [] => ([], h)
  | r :: b' =>
      match memo !! r with
      | Some r' => let '(out, h') := deepcopy_rows memo b' h in (r' :: out, h')
      | None =>
          let r' := length h in
          let '(out, h') := deepcopy_rows (<[r:=r']> memo) b' (h ++ [h !!! r]) in
          (r' :: out, h')
      end
  end.

Definition deepcopy (b : board) : M heap board :=
  λ h, let '(b', h') := deepcopy_rows ∅ b h in (Ok b', h').

(** ** class Validator *)

Definition board_length : Z := 10.

(** ** class BoardValidator *)
Module BoardValidator.

Definition validate (h : heap) (self_board : board) : res bool :=
  if negb (Z.of_nat (length self_board) =? board_length)
  then Raise (ValueError "Board has wrong columns count")
  else
    _ ← res_for_each self_board (λ column,
           if negb (Z.of_nat (length (h !!! column)) =? board_length)
           then Raise (ValueError "Column has wrong rows count")
           else Ok tt);
    Ok true.

End BoardValidator.

(** ** class AbstractShipValidator *)

Definition inspect_cell (h : heap) (self_board : board) (i_coord j_coord : Z) : res Z :=
  read_cell h self_board i_coord j_coord.

Definition get_neighbor_cell_status (h : heap) (self_board : board)
    (i_coord j_coord : Z) : res Z :=
  if (0 <=? i_coord) && (i_coord <? board_length)
     && (0 <=? j_coord) && (j_coord <? board_length)
  then inspect_cell h self_board i_coord j_coord
  else Ok 0.

(** ** class BattleShipsValidator *)
Module BattleShipsValidator.

Definition construction_message (left right upper lower : Z) : string :=
  "Ship construction is wrong, cells are: left " +:+ pretty left
    +:+ ", right " +:+ pretty right
    +:+ ", upper " +:+ pretty upper
    +:+ ", lower " +:+ pretty lower.

Definition check_if_neighbor_cells_set_up_correct (h : heap) (self_board : board)
    (i_coord j_coord : Z) : res bool :=
  left ← get_neighbor_cell_status h self_board (i_coord - 1) j_coord;
  right ← get_neighbor_cell_status h self_board (i_coord + 1) j_coord;
  upper ← get_neighbor_cell_status h self_board i_coord (j_coord - 1);
  lower ← get_neighbor_cell_status h self_board i_coord (j_coord + 1);
  let total := upper + left + right + lower in
  if (total =? 0) || (total =? 1) then Ok true
  else if truthy left && truthy right && negb (truthy upper || truthy lower)
  then Ok true
  else if truthy upper && truthy lower && negb (truthy left || truthy right)
  then Ok true
  else Raise (ValueError (construction_message left right upper lower)).

Definition check_if_cross_cells_set_up_correct (h : heap) (self_board : board)
    (i_coord j_coord : Z) : res bool :=
  left_upper ← get_neighbor_cell_status h self_board (i_coord - 1) (j_coord + 1);
  left_lower ← get_neighbor_cell_status h self_board (i_coord - 1) (j_coord - 1);
  right_upper ← get_neighbor_cell_status h self_board (i_coord + 1) (j_coord + 1);
  right_lower ← get_neighbor_cell_status h self_board (i_coord + 1) (j_coord - 1);
  if negb (existsb truthy [left_upper; left_lower; right_upper; right_lower])
  then Ok true
  else Raise (ValueError "Ship construction is wrong, ships are in contact by diagonal").

Definition check_cell (h : heap) (self_board : board) (i_index j_index : Z) : res unit :=
  cell ← inspect_cell h self_board i_index j_index;
  if negb (truthy cell) then Ok tt
  else
    _ ← check_if_neighbor_cells_set_up_correct h self_board i_index j_index;
    _ ← check_if_cross_cells_set_up_correct h self_board i_index j_index;
    Ok tt.

Definition validate (h : heap) (self_board : board) : res bool :=
  _ ← res_for_each (enumerate self_board) (λ '(i_index, column),
         res_for_each (enumerate (h !!! column)) (λ '(j_index, _),
           check_cell h self_board i_index j_index));
  Ok true.

End BattleShipsValidator.

(** ** class BattleShipsQuantityValidator *)

(** Reading the state without changing it. *)
Definition gets {S A} (f : S → res A) : M S A := λ s, (f s, s).

(** A computation on the store, run in a state that pairs the store with the
    validator's own dictionary. *)
Definition on_heap {C A} (c : M heap A) : M (heap * C) A :=
  λ '(h, d), let '(r, h') := c h in (r, (h', d)).

Definition on_counts {A} (c : M (gmap Z Z) A) : M (heap * gmap Z Z) A :=
  λ '(h, d), let '(r, d') := c d in (r, (h, d')).

Module BattleShipsQuantityValidator.

(** [{key: 5 - key for key in range(1, 5)}] *)
Definition initial_counts : gmap Z Z :=
  list_to_map ((λ key, (key, 5 - key)) <$> range 1 5).

(** [__init__]: the validator's board is a deep copy of the argument. *)
Definition init (field : board) : M heap (board * gmap Z Z) :=
  self_board ← deepcopy field;
  mret (self_board, initial_counts).

Definition validate_ship_vertically (h : heap) (self_board : board)
    (i_coord j_coord length : Z) : res bool :=
  cells ← res_map (λ i, get_neighbor_cell_status h self_board (i_coord + i) j_coord)
                  (range 1 length);
  Ok (forallb truthy cells).

Definition validate_ship_horizontally (h : heap) (self_board : board)
    (i_coord j_coord length : Z) : res bool :=
  cells ← res_map (λ i, get_neighbor_cell_status h self_board i_coord (j_coord + i))
                  (range 1 length);
  Ok (forallb truthy cells).

Definition drop_vertically (self_board : board) (i_coord j_coord length : Z)
    : M heap unit :=
  for_each (range 1 length) (λ i, write_cell self_board (i_coord + i) j_coord 0).

Definition drop_horizontally (self_board : board) (i_coord j_coord length : Z)
    : M heap unit :=
  for_each (range 1 length) (λ i, write_cell self_board i_coord (j_coord + i) 0).

Definition drop_ship (self_board : board) (i_coord j_coord length : Z) : M heap bool :=
  vertical ← gets (λ h, validate_ship_vertically h self_board i_coord j_coord length);
  _ ← (if vertical : bool then drop_vertically self_board i_coord j_coord length
       else mret tt);
  horizontal ← gets (λ h, validate_ship_horizontally h self_board i_coord j_coord length);
  _ ← (if horizontal : bool then drop_horizontally self_board i_coord j_coord length
       else mret tt);
  mret (vertical || horizontal).

Definition drop_flagman (self_board : board) (i_coord j_coord : Z) : M heap bool :=
  drop_ship self_board i_coord j_coord 4.

Definition drop_cruiser (self_board : board) (i_coord j_coord : Z) : M heap bool :=
  drop_ship self_board i_coord j_coord 3.

Definition drop_destroyer (self_board : board) (i_coord j_coord : Z) : M heap bool :=
  drop_ship self_board i_coord j_coord 2.

(** [self.ship_length_to_count[key] -= 1] *)
Definition decrement (key : Z) : M (gmap Z Z) unit :=
  λ d, match d !! key with
       | Some count => (Ok tt, <[key:=count - 1]> d)
       | None => (Raise KeyError, d)
       end.

(** The body of the inner loop of [validate]. *)
Definition visit (self_board : board) (i_index j_index : Z) : M (heap * gmap Z Z) unit :=
  cell ← gets (λ s, inspect_cell s.1 self_board i_index j_index);
  if negb (truthy cell) then mret tt
  else
    flagman ← on_heap (drop_flagman self_board i_index j_index);
    if flagman : bool then on_counts (decrement 4)
    else
      cruiser ← on_heap (drop_cruiser self_board i_index j_index);
      if cruiser : bool then on_counts (decrement 3)
      else
        destroyer ← on_heap (drop_destroyer self_board i_index j_index);
        if destroyer : bool then on_counts (decrement 2)
        else on_counts (decrement 1).

(** [all(map(lambda x: x == 0, self.ship_length_to_count.values()))] *)
Definition all_zero (d : gmap Z Z) : bool :=
  forallb (λ x, x =? 0) (snd <$> map_to_list d).

(** The row iterated by the inner loop is looked up when the loop starts;
    the body assigns to items only, so the row keeps its length and the
    iterator yields each of its indices once. *)
Definition validate (self_board : board) : M (heap * gmap Z Z) bool :=
  _ ← for_each (enumerate self_board) (λ '(i_index, column),
         row ← gets (λ s, Ok (s.1 !!! column));
         for_each (enumerate (row : list Z)) (λ '(j_index, _),
           visit self_board i_index j_index));
  counts ← gets (λ s, Ok s.2);
  if negb (all_zero counts) then raise (ValueError "Ships are incorrect")
  else mret true.

End BattleShipsQuantityValidator.

(** ** validate_battlefield *)

Inductive validator :=
  | BoardValidator
  | BattleShipsValidator
  | BattleShipsQuantityValidator.

(** [validator(field).validate()] *)
Definition construct_and_validate (v : validator) (field : board) : M heap bool :=
  match v with
  | BoardValidator => gets (λ h, BoardValidator.validate h field)
  | BattleShipsValidator => gets (λ h, BattleShipsValidator.validate h field)
  | BattleShipsQuantityValidator =>
      λ h, match BattleShipsQuantityValidator.init field h with
           | (Ok (self_board, counts), h1) =>
               let '(r, (h2, _)) :=
                 BattleShipsQuantityValidator.validate self_board (h1, counts) in
               (r, h2)
           | (Raise e, h1) => (Raise e, h1)
           end
  end.

(** The state of a call: the store, and the messages handed to
    [logger.debug] so far. *)
Definition world : Type := heap * list string.

Fixpoint run_validators (validators : list validator) (field : board) : M world bool :=
  match validators with
  | [] => mret true
  | v :: rest =>
      λ '(h, log),
        match construct_and_validate v field h with
        | (Ok _, h') => run_validators rest field (h', log)
        | (Raise (ValueError msg), h') => (Ok false, (h', log ++ [msg]))
        | (Raise e, h') => (Raise e, (h', log))
        end
  end.

Definition validators : list validator :=
  [BoardValidator; BattleShipsValidator; BattleShipsQuantityValidator].

Definition validate_battlefield (field : board) : M world bool :=
  run_validators validators field.

(** The value returned for a matrix handed over as a fresh list of fresh rows. *)
Definition validate_matrix (m : list (list Z)) : res bool :=
  let '(h, field) := alloc_board m in
  (validate_battlefield field (h, [])).1.

(** * Properties of the model *)

(** ** Results and loops *)

(** A result that [validate_battlefield] handles: a value or a [ValueError]. *)
Definition handled {A} (r : res A) : Prop :=
  match r with
  | Ok _ | Raise (ValueError _) => True
  | Raise _ => False
  end.

Lemma res_for_each_ok {A} (xs : list A) (body : A → res unit) :
  res_for_each xs body = Ok tt ↔ Forall (λ x, body x = Ok tt) xs.
Proof.
  induction xs as [|x xs IH]; simpl.
  - split; [constructor | done].
  - rewrite Forall_cons, <- IH. unfold mbind, res_mbind.
    destruct (body x) as [[]|e]; simpl; intuition congruence.
Qed.

Lemma res_for_each_handled {A} (xs : list A) (body : A → res unit) :
  Forall (λ x, handled (body x)) xs → handled (res_for_each xs body).
Proof.
  induction 1 as [|x xs Hx _ IH]; simpl; [done|].
  unfold mbind, res_mbind. destruct (body x) as [[]|e]; simpl; done.
Qed.

Lemma res_map_ok {A B} (f : A → res B) (g : A → B) (xs : list A) :
  Forall (λ x, f x = Ok (g x)) xs → res_map f xs = Ok (g <$> xs).
Proof.
  induction 1 as [|x xs Hx _ IH]; simpl; [done|].
  unfold mbind, res_mbind. rewrite Hx; simpl. rewrite IH; simpl. done.
Qed.

Lemma forallb_agree {A} (f g : A → bool) (xs : list A) :
  (∀ x, x ∈ xs → f x = g x) → forallb f xs = forallb g xs.
Proof.
  induction xs as [|x xs IH]; intros H; simpl; [done|].
  rewrite (H x) by left. rewrite IH; [done|]. intros y Hy. apply H. by right.
Qed.

Lemma handled_cases {A} (r : res A) :
  handled r → (∃ a, r = Ok a) ∨ (∃ msg, r = Raise (ValueError msg)).
Proof. destruct r as [a|[msg| |]]; simpl; intros H; try done; eauto. Qed.

(** ** Indexing *)

Lemma py_index_in_range (n : nat) (i : Z) :
  0 ≤ i < Z.of_nat n → py_index n i = Some (Z.to_nat i).
Proof.
  intros Hi. unfold py_index.
  destruct (Z.ltb_spec i 0); [lia|].
  destruct (Z.leb_spec 0 i); [|lia].
  destruct (Z.ltb_spec i (Z.of_nat n)); [|lia]. done.
Qed.

Lemma py_index_lt (n : nat) (i : Z) (k : nat) :
  py_index n i = Some k → (k < n)%nat.
Proof.
  unfold py_index. intros H.
  destruct (0 <=? _) eqn:E1; [|done].
  destruct (_ <? Z.of_nat n) eqn:E2; [|done].
  simpl in H. injection H as <-.
  apply Z.leb_le in E1. apply Z.ltb_lt in E2. lia.
Qed.

Lemma getitem_in_range {A} `{Inhabited A} (xs : list A) (i : Z) :
  0 ≤ i < Z.of_nat (length xs) → getitem xs i = Ok (xs !!! Z.to_nat i).
Proof.
  intros Hi. unfold getitem. rewrite py_index_in_range by done.
  destruct (xs !! Z.to_nat i) as [x|] eqn:E.
  - by rewrite (list_lookup_total_correct _ _ _ E).
  - apply lookup_ge_None in E. lia.
Qed.

Lemma setitem_in_range {A} (xs : list A) (i : Z) (v : A) :
  0 ≤ i < Z.of_nat (length xs) → setitem xs i v = Ok (<[Z.to_nat i:=v]> xs).
Proof. intros Hi. unfold setitem. by rewrite py_index_in_range. Qed.

(** ** Boards of the required shape *)

(** Ten rows of ten cells. *)
Definition shape10 (h : heap) (b : board) : Prop :=
  length b = 10%nat ∧ Forall (λ r, length (h !!! r) = 10%nat) b.

Definition in_range (i : Z) : bool := (0 <=? i) && (i <? board_length).

Definition on_board (i j : Z) : bool := in_range i && in_range j.

(** The cell at row [i], column [j] of a board. *)
Definition cell_at (h : heap) (b : board) (i j : Z) : Z :=
  (h !!! (b !!! Z.to_nat i)) !!! Z.to_nat j.

(** The state of a cell, empty outside the board. *)
Definition status (h : heap) (b : board) (i j : Z) : Z :=
  if on_board i j then cell_at h b i j else 0.

Definition occupied (h : heap) (b : board) (i j : Z) : bool :=
  truthy (status h b i j).

Lemma in_range_spec (i : Z) : in_range i = true ↔ 0 ≤ i < 10.
Proof.
  unfold in_range, board_length.
  rewrite andb_true_iff, Z.leb_le, Z.ltb_lt. done.
Qed.

Lemma on_board_spec (i j : Z) : on_board i j = true ↔ 0 ≤ i < 10 ∧ 0 ≤ j < 10.
Proof. unfold on_board. by rewrite andb_true_iff, !in_range_spec. Qed.

Lemma shape10_wf (h : heap) (b : board) : shape10 h b → wf_board h b.
Proof.
  intros [_ Hrows]. unfold wf_board. eapply Forall_impl; [exact Hrows|].
  intros r Hr. simpl in Hr.
  destruct (decide (r < length h)%nat) as [|Hge]; [done|].
  rewrite list_lookup_total_alt, lookup_ge_None_2 in Hr by lia. done.
Qed.

Lemma shape10_row (h : heap) (b : board) (i : Z) :
  shape10 h b → 0 ≤ i < 10 → length (h !!! (b !!! Z.to_nat i)) = 10%nat.
Proof.
  intros [Hlen Hrows] Hi.
  rewrite Forall_lookup in Hrows. apply (Hrows (Z.to_nat i)).
  apply list_lookup_lookup_total_lt. lia.
Qed.

Lemma read_cell_ok (h : heap) (b : board) (i j : Z) :
  shape10 h b → 0 ≤ i < 10 → 0 ≤ j < 10 →
  read_cell h b i j = Ok (cell_at h b i j).
Proof.
  intros Hs Hi Hj. unfold read_cell, cell_at.
  rewrite getitem_in_range by (destruct Hs as [-> _]; lia). simpl.
  unfold mbind, res_mbind; simpl.
  apply getitem_in_range. rewrite shape10_row by done. lia.
Qed.

Lemma get_neighbor_cell_status_ok (h : heap) (b : board) (i j : Z) :
  shape10 h b → get_neighbor_cell_status h b i j = Ok (status h b i j).
Proof.
  intros Hs. unfold get_neighbor_cell_status, status.
  change ((0 <=? i) && (i <? board_length) && (0 <=? j) && (j <? board_length))
    with (in_range i && (0 <=? j) && (j <? board_length)).
  rewrite <- andb_assoc. change ((0 <=? j) && (j <? board_length)) with (in_range j).
  fold (on_board i j).
  destruct (on_board i j) eqn:E; [|done].
  apply on_board_spec in E as [Hi Hj]. by apply read_cell_ok.
Qed.

Lemma get_neighbor_cell_status_outside (h : heap) (b : board) (i j : Z) :
  on_board i j = false → get_neighbor_cell_status h b i j = Ok 0.
Proof.
  intros E. unfold get_neighbor_cell_status.
  change ((0 <=? i) && (i <? board_length) && (0 <=? j) && (j <? board_length))
    with (in_range i && (0 <=? j) && (j <? board_length)).
  rewrite <- andb_assoc. change ((0 <=? j) && (j <? board_length)) with (in_range j).
  fold (on_board i j). by rewrite E.
Qed.

(** ** The shape check *)

Lemma board_validate_shape (h : heap) (b : board) :
  shape10 h b → BoardValidator.validate h b = Ok true.
Proof.
  intros [Hlen Hrows]. unfold BoardValidator.validate, board_length.
  rewrite Hlen. simpl.
  assert (res_for_each b (λ column,
            if negb (Z.of_nat (length (h !!! column)) =? 10)
            then Raise (ValueError "Column has wrong rows count") else Ok tt) = Ok tt) as ->.
  { apply res_for_each_ok. eapply Forall_impl; [exact Hrows|].
    intros r Hr. simpl in *. by rewrite Hr. }
  done.
Qed.

Lemma board_validate_not_shape (h : heap) (b : board) :
  ¬ shape10 h b →
  BoardValidator.validate h b = Raise (ValueError "Board has wrong columns count")
  ∨ BoardValidator.validate h b = Raise (ValueError "Column has wrong rows count").
Proof.
  intros Hn. unfold BoardValidator.validate, board_length.
  destruct (Z.eqb_spec (Z.of_nat (length b)) 10) as [Hlen|Hlen]; simpl; [|by left].
  right.
  assert (¬ Forall (λ r, length (h !!! r) = 10%nat) b) as Hrows.
  { intros Hrows. apply Hn. split; [lia|done]. }
  clear Hn Hlen. induction b as [|r b IH]; simpl.
  - destruct Hrows. constructor.
  - unfold mbind, res_mbind; simpl.
    destruct (Z.eqb_spec (Z.of_nat (length (h !!! r))) 10) as [Hr|Hr]; simpl; [|done].
    unfold mbind, res_mbind in IH; simpl in IH. 
    destruct (res_for_each b _) as [[]|e] eqn:E; simpl in *.
    + exfalso. apply Hrows. constructor; [lia|].
      apply res_for_each_ok in E. eapply Forall_impl; [exact E|].
      intros r' Hr'. simpl in Hr'.
      destruct (Z.eqb_spec (Z.of_nat (length (h !!! r'))) 10); simpl in *; [lia|done].
    + apply IH. intros Hb. apply Hrows. constructor; [lia|done].
Qed.

Lemma shape10_dec (h : heap) (b : board) : Decision (shape10 h b).
Proof. unfold shape10. apply _. Defined.

(** ** Enumerations *)

Lemma elem_of_enumerate {A} (xs : list A) (i : Z) (x : A) :
  (i, x) ∈ enumerate xs ↔ 0 ≤ i ∧ xs !! Z.to_nat i = Some x.
Proof.
  unfold enumerate. rewrite list_elem_of_lookup. split.
  - intros [k Hk]. apply lookup_zip_with_Some in Hk as (i' & x' & [= <- <-] & Hi & Hx).
    apply lookup_seqZ in Hi as [-> Hlt]. split; [lia|].
    by rewrite Z.add_0_l, Nat2Z.id.
  - intros [Hi Hx]. exists (Z.to_nat i).
    apply lookup_zip_with_Some. exists i, x. split_and!; [done| |done].
    apply lookup_seqZ. apply lookup_lt_Some in Hx. lia.
Qed.

Lemma Forall_enumerate {A} (P : Z * A → Prop) (xs : list A) :
  Forall P (enumerate xs) ↔ ∀ k x, xs !! k = Some x → P (Z.of_nat k, x).
Proof.
  rewrite Forall_forall. split.
  - intros H k x Hx. apply H, elem_of_enumerate. rewrite Nat2Z.id. split; [lia|done].
  - intros H [i x] [Hi Hx]%elem_of_enumerate.
    specialize (H _ _ Hx). by rewrite Z2Nat.id in H.
Qed.

Lemma elem_of_range (a b i : Z) : i ∈ range a b ↔ a ≤ i < b.
Proof. unfold range. rewrite elem_of_seqZ. lia. Qed.

(** ** The contact check *)

Section contact.
Context (h : heap) (b : board).
Hypothesis Hshape : shape10 h b.

(** The orthogonal rule, on the states of the four neighbours. *)
Definition neighbors_ok (i j : Z) : bool :=
  let left := status h b (i - 1) j in
  let right := status h b (i + 1) j in
  let upper := status h b i (j - 1) in
  let lower := status h b i (j + 1) in
  let total := upper + left + right + lower in
  (total =? 0) || (total =? 1)
  || (truthy left && truthy right && negb (truthy upper || truthy lower))
  || (truthy upper && truthy lower && negb (truthy left || truthy right)).

(** The diagonal rule. *)
Definition cross_ok (i j : Z) : bool :=
  negb (existsb truthy
          [status h b (i - 1) (j + 1); status h b (i - 1) (j - 1);
           status h b (i + 1) (j + 1); status h b (i + 1) (j - 1)]).

Definition cell_ok (i j : Z) : bool :=
  negb (occupied h b i j) || (neighbors_ok i j && cross_ok i j).

Lemma check_neighbor_cells_eq (i j : Z) :
  BattleShipsValidator.check_if_neighbor_cells_set_up_correct h b i j =
  if neighbors_ok i j then Ok true
  else Raise (ValueError (BattleShipsValidator.construction_message
                (status h b (i - 1) j) (status h b (i + 1) j)
                (status h b i (j - 1)) (status h b i (j + 1)))).
Proof.
  unfold BattleShipsValidator.check_if_neighbor_cells_set_up_correct, neighbors_ok.
  rewrite !get_neighbor_cell_status_ok by done.
  unfold mbind, res_mbind; simpl.
  destruct (_ || _) eqn:E1; simpl; [done|].
  destruct (truthy (status h b (i - 1) j) && _ && _) eqn:E2; simpl; [done|].
  destruct (truthy (status h b i (j - 1)) && _ && _) eqn:E3; simpl; done.
Qed.

Lemma check_cross_cells_eq (i j : Z) :
  BattleShipsValidator.check_if_cross_cells_set_up_correct h b i j =
  if cross_ok i j then Ok true
  else Raise (ValueError "Ship construction is wrong, ships are in contact by diagonal").
Proof.
  unfold BattleShipsValidator.check_if_cross_cells_set_up_correct, cross_ok.
  rewrite !get_neighbor_cell_status_ok by done.
  unfold mbind, res_mbind; simpl. done.
Qed.

Lemma status_on_board (i j : Z) :
  0 ≤ i < 10 → 0 ≤ j < 10 → status h b i j = cell_at h b i j.
Proof.
  intros Hi Hj. unfold status.
  by rewrite (proj2 (on_board_spec i j)).
Qed.

Lemma check_cell_eq (i j : Z) :
  0 ≤ i < 10 → 0 ≤ j < 10 →
  BattleShipsValidator.check_cell h b i j =
  if negb (occupied h b i j) then Ok tt
  else if neighbors_ok i j then
    if cross_ok i j then Ok tt
    else Raise (ValueError "Ship construction is wrong, ships are in contact by diagonal")
  else Raise (ValueError (BattleShipsValidator.construction_message
                (status h b (i - 1) j) (status h b (i + 1) j)
                (status h b i (j - 1)) (status h b i (j + 1)))).
Proof.
  intros Hi Hj. unfold BattleShipsValidator.check_cell, inspect_cell, occupied.
  rewrite read_cell_ok, status_on_board by done.
  unfold mbind at 1, res_mbind at 1; simpl.
  destruct (negb (truthy _)); [done|].
  rewrite check_neighbor_cells_eq, check_cross_cells_eq.
  destruct (neighbors_ok i j); [|done].
  destruct (cross_ok i j); done.
Qed.

Lemma check_cell_ok (i j : Z) :
  0 ≤ i < 10 → 0 ≤ j < 10 →
  BattleShipsValidator.check_cell h b i j = Ok tt ↔ cell_ok i j = true.
Proof.
  intros Hi Hj. rewrite check_cell_eq by done. unfold cell_ok.
  destruct (negb (occupied h b i j)), (neighbors_ok i j), (cross_ok i j);
    simpl; split; congruence.
Qed.

Lemma check_cell_handled (i j : Z) :
  0 ≤ i < 10 → 0 ≤ j < 10 → handled (BattleShipsValidator.check_cell h b i j).
Proof.
  intros Hi Hj. rewrite check_cell_eq by done.
  destruct (negb (occupied h b i j)), (neighbors_ok i j), (cross_ok i j); done.
Qed.

(** What the two loops of [validate] visit: every cell of the board. *)
Lemma contact_scan_ok :
  res_for_each (enumerate b) (λ '(i_index, column),
    res_for_each (enumerate (h !!! column)) (λ '(j_index, _),
      BattleShipsValidator.check_cell h b i_index j_index)) = Ok tt
  ↔ ∀ i j, 0 ≤ i < 10 → 0 ≤ j < 10 → cell_ok i j = true.
Proof.
  rewrite res_for_each_ok, Forall_enumerate. split.
  - intros H i j Hi Hj.
    assert (b !! Z.to_nat i = Some (b !!! Z.to_nat i)) as Hr.
    { apply list_lookup_lookup_total_lt. destruct Hshape as [-> _]. lia. }
    specialize (H _ _ Hr). simpl in H.
    rewrite res_for_each_ok, Forall_enumerate in H.
    pose proof (shape10_row h b i Hshape Hi) as Hlen.
    assert (is_Some ((h !!! (b !!! Z.to_nat i)) !! Z.to_nat j)) as [x Hx].
    { apply lookup_lt_is_Some. lia. }
    specialize (H _ _ Hx). simpl in H.
    rewrite Z2Nat.id in H by lia. rewrite Z2Nat.id in H by lia.
    by apply check_cell_ok.
  - intros H k r Hr. simpl.
    rewrite res_for_each_ok, Forall_enumerate. intros k' x Hx.
    pose proof (lookup_lt_Some _ _ _ Hr) as Hk.
    destruct Hshape as [Hlen Hrows].
    rewrite Forall_lookup in Hrows. specialize (Hrows _ _ Hr). simpl in Hrows.
    pose proof (lookup_lt_Some _ _ _ Hx) as Hk'.
    apply check_cell_ok; [lia..|]. apply H; lia.
Qed.

Lemma contact_validate_ok :
  BattleShipsValidator.validate h b = Ok true
  ↔ ∀ i j, 0 ≤ i < 10 → 0 ≤ j < 10 → cell_ok i j = true.
Proof.
  rewrite <- contact_scan_ok. unfold BattleShipsValidator.validate.
  unfold mbind at 1, res_mbind at 1.
  destruct (res_for_each _ _) as [[]|e]; simpl; split; congruence.
Qed.

Lemma contact_validate_handled : handled (BattleShipsValidator.validate h b).
Proof.
  unfold BattleShipsValidator.validate.
  assert (handled (res_for_each (enumerate b) (λ '(i_index, column),
    res_for_each (enumerate (h !!! column)) (λ '(j_index, _),
      BattleShipsValidator.check_cell h b i_index j_index)))) as Hh.
  { apply res_for_each_handled, Forall_enumerate. intros k r Hr. simpl.
    apply res_for_each_handled, Forall_enumerate. intros k' x Hx. simpl.
    pose proof (lookup_lt_Some _ _ _ Hr) as Hk.
    destruct Hshape as [Hlen Hrows].
    rewrite Forall_lookup in Hrows. specialize (Hrows _ _ Hr). simpl in Hrows.
    pose proof (lookup_lt_Some _ _ _ Hx) as Hk'.
    apply check_cell_handled; lia. }
  unfold mbind, res_mbind. destruct (res_for_each _ _) as [[]|e]; done.
Qed.

(** A cell that breaks a rule makes the whole check raise [ValueError]. *)
Lemma contact_validate_fails (i j : Z) :
  0 ≤ i < 10 → 0 ≤ j < 10 → cell_ok i j = false →
  ∃ msg, BattleShipsValidator.validate h b = Raise (ValueError msg).
Proof.
  intros Hi Hj Hbad.
  destruct (handled_cases _ contact_validate_handled) as [[[] Hv]|Hv]; [| |done].
  - pose proof (proj1 contact_validate_ok Hv i j Hi Hj) as Hok. congruence.
  - exfalso. revert Hv. unfold BattleShipsValidator.validate, mbind, res_mbind.
    destruct (res_for_each _ _); simpl; congruence.
Qed.

End contact.

(** ** Assignment to a cell *)

(** The store after [self.board[i][j] = v] on a board of the required shape:
    the row object that row [i] refers to is updated in place. *)
Definition store_cell (h : heap) (b : board) (i j v : Z) : heap :=
  let r := b !!! Z.to_nat i in
  <[r := <[Z.to_nat j := v]> (h !!! r)]> h.

Lemma shape10_ref (h : heap) (b : board) (i : Z) :
  shape10 h b → 0 ≤ i < 10 → (b !!! Z.to_nat i < length h)%nat.
Proof.
  intros Hs Hi. pose proof (shape10_wf _ _ Hs) as Hwf.
  unfold wf_board in Hwf. rewrite Forall_lookup in Hwf.
  apply (Hwf (Z.to_nat i)), list_lookup_lookup_total_lt.
  destruct Hs as [-> _]. lia.
Qed.

Lemma write_cell_ok (h : heap) (b : board) (i j v : Z) :
  shape10 h b → 0 ≤ i < 10 → 0 ≤ j < 10 →
  write_cell b i j v h = (Ok tt, store_cell h b i j v).
Proof.
  intros Hs Hi Hj. unfold write_cell, store_cell.
  rewrite getitem_in_range by (destruct Hs as [-> _]; lia).
  rewrite setitem_in_range; [done|].
  rewrite shape10_row by done. lia.
Qed.

Lemma store_cell_length (h : heap) (b : board) (i j v : Z) :
  length (store_cell h b i j v) = length h.
Proof. unfold store_cell. by rewrite length_insert. Qed.

Lemma store_cell_row_length (h : heap) (b : board) (i j v : Z) (r : nat) :
  length (store_cell h b i j v !!! r) = length (h !!! r).
Proof.
  unfold store_cell.
  destruct (decide (r = b !!! Z.to_nat i)) as [->|Hne].
  - destruct (decide (b !!! Z.to_nat i < length h)%nat) as [Hlt|Hge].
    + rewrite list_lookup_total_insert_eq by done. by rewrite length_insert.
    + by rewrite list_insert_ge by lia.
  - by rewrite list_lookup_total_insert_ne.
Qed.

Lemma store_cell_shape (h : heap) (b : board) (i j v : Z) :
  shape10 h b → shape10 (store_cell h b i j v) b.
Proof.
  intros [Hlen Hrows]. split; [done|].
  eapply Forall_impl; [exact Hrows|]. intros r Hr. simpl in *.
  by rewrite store_cell_row_length.
Qed.

Lemma cell_at_store_cell (h : heap) (b : board) (i j v i' j' : Z) :
  shape10 h b → 0 ≤ i < 10 → 0 ≤ j < 10 → 0 ≤ j' < 10 →
  cell_at (store_cell h b i j v) b i' j' =
  if decide (b !!! Z.to_nat i' = b !!! Z.to_nat i ∧ j' = j) then v
  else cell_at h b i' j'.
Proof.
  intros Hs Hi Hj Hj'. unfold cell_at, store_cell.
  pose proof (shape10_ref h b i Hs Hi) as Hr.
  pose proof (shape10_row h b i Hs Hi) as Hrow.
  destruct (decide (b !!! Z.to_nat i' = b !!! Z.to_nat i)) as [->|Hne].
  - rewrite list_lookup_total_insert_eq by done.
    destruct (decide (j' = j)) as [->|Hnj].
    + rewrite list_lookup_total_insert_eq by lia.
      rewrite decide_True; done.
    + rewrite list_lookup_total_insert_ne by lia.
      rewrite decide_False; [done|]. intros [_ ?]; done.
  - rewrite list_lookup_total_insert_ne by done.
    rewrite decide_False; [done|]. intros [? _]; done.
Qed.

(** A store that agrees with [h] on every column but [j]. *)
Lemma status_store_cell_other_column (h : heap) (b : board) (i j v i' j' : Z) :
  shape10 h b → 0 ≤ i < 10 → 0 ≤ j < 10 → j' ≠ j →
  status (store_cell h b i j v) b i' j' = status h b i' j'.
Proof.
  intros Hs Hi Hj Hne. unfold status.
  destruct (on_board i' j') eqn:E; [|done].
  apply on_board_spec in E as [Hi' Hj'].
  rewrite cell_at_store_cell by done.
  rewrite decide_False; [done|]. intros [_ ?]; done.
Qed.

(** ** The fleet counter, as the specification words it

    A second definition, following the specification's description of the
    fleet counter rather than the code: total functions on the working copy
    and the tally, with cells outside the board empty.  It is compared with
    the code's [BattleShipsQuantityValidator.validate] below. *)
Module FleetCounter.

Inductive axis := Vertical | Horizontal.

(** The cell at offset [k] from [(i, j)] in the positive direction. *)
Definition offset (a : axis) (i j k : Z) : Z * Z :=
  match a with
  | Vertical => (i + k, j)
  | Horizontal => (i, j + k)
  end.

(** "Extends as length-L": the cells at offsets 1..L-1 are all occupied. *)
Definition extends (h : heap) (b : board) (a : axis) (i j L : Z) : bool :=
  forallb (λ k, occupied h b (offset a i j k).1 (offset a i j k).2) (range 1 L).

(** Clearing the trailing cells: offsets 1..L-1 along the axis. *)
Definition clear (b : board) (a : axis) (i j L : Z) (h : heap) : heap :=
  foldl (λ h' k, store_cell h' b (offset a i j k).1 (offset a i j k).2 0) h (range 1 L).

Definition matches (h : heap) (b : board) (i j L : Z) : bool :=
  extends h b Vertical i j L || extends h b Horizontal i j L.

(** Strict priority: length 4, then 3, then 2; a cell with no extension is a
    ship of length 1. *)
Definition ship_length (h : heap) (b : board) (i j : Z) : Z :=
  if matches h b i j 4 then 4
  else if matches h b i j 3 then 3
  else if matches h b i j 2 then 2
  else 1.

(** The trailing cells of every matched extension are cleared. *)
Definition clear_matched (b : board) (i j L : Z) (h : heap) : heap :=
  let h1 := if extends h b Vertical i j L then clear b Vertical i j L h else h in
  if extends h b Horizontal i j L then clear b Horizontal i j L h1 else h1.

(** One cell of the scan: an occupied cell is attributed to one ship, whose
    tally entry is decremented once. *)
Definition step (b : board) (i j : Z) (s : heap * gmap Z Z) : heap * gmap Z Z :=
  if occupied s.1 b i j then
    let L := ship_length s.1 b i j in
    (clear_matched b i j L s.1, alter (λ count, count - 1) L s.2)
  else s.

Definition scan_row (b : board) (i : Z) (s : heap * gmap Z Z) : heap * gmap Z Z :=
  foldl (λ s' j, step b i j s') s (range 0 10).

(** The scan, in row-major order. *)
Definition scan (b : board) (s : heap * gmap Z Z) : heap * gmap Z Z :=
  foldl (λ s' i, scan_row b i s') s (range 0 10).

(** The seed of the tally: count = 5 - length. *)
Definition expected : gmap Z Z := {[ 1 := 4; 2 := 3; 3 := 2; 4 := 1 ]}.

(** [remaining[L] == 0] for every L in 1..4. *)
Definition complete (remaining : gmap Z Z) : bool :=
  forallb (λ L, bool_decide (remaining !! L = Some 0)) (range 1 5).

Definition validate (h : heap) (b : board) : res bool * heap :=
  let s := scan b (h, expected) in
  (if complete s.2 then Ok true else Raise (ValueError "Ships are incorrect"), s.1).

End FleetCounter.

(** ** The code's fleet counter against the specification's *)

Lemma for_each_foldl {S A} (Inv : S → Prop) (xs : list A)
    (body : A → M S unit) (f : S → A → S) :
  (∀ x s, x ∈ xs → Inv s → body x s = (Ok tt, f s x) ∧ Inv (f s x)) →
  ∀ s, Inv s → for_each xs body s = (Ok tt, foldl f s xs) ∧ Inv (foldl f s xs).
Proof.
  induction xs as [|x xs IH]; intros Hbody s Hs; simpl; [done|].
  destruct (Hbody x s) as [Hx Hinv]; [left|done|].
  unfold mbind, m_mbind, m_bind. rewrite Hx.
  apply IH; [|done]. intros y s' Hy. apply Hbody. by right.
Qed.

Lemma for_each_zip_index {S A} (xs : list A) (body : Z → M S unit) (a : Z) :
  for_each (zip (seqZ a (Z.of_nat (length xs))) xs) (λ '(k, _), body k)
  = for_each (seqZ a (Z.of_nat (length xs))) body.
Proof.
  revert a. induction xs as [|x xs IH]; intros a; [done|].
  rewrite length_cons, Nat2Z.inj_succ, seqZ_cons by lia. simpl.
  replace (Z.pred (Z.succ (Z.of_nat (length xs)))) with (Z.of_nat (length xs)) by lia.
  unfold mbind, m_mbind. by rewrite IH.
Qed.

Lemma for_each_enumerate {S A} (xs : list A) (body : Z → M S unit) :
  for_each (enumerate xs) (λ '(k, _), body k)
  = for_each (seqZ 0 (Z.of_nat (length xs))) body.
Proof. apply for_each_zip_index. Qed.

Section fleet.
Context (b : board).

Import FleetCounter.

Lemma extends_on_board (h : heap) (a : axis) (i j L k : Z) :
  extends h b a i j L = true → 1 ≤ k < L →
  on_board (offset a i j k).1 (offset a i j k).2 = true.
Proof.
  unfold extends. rewrite forallb_forall. intros H Hk.
  specialize (H k). rewrite <- list_elem_of_In, elem_of_range in H.
  specialize (H Hk). unfold occupied, status in H.
  destruct (on_board _ _); [done|]. done.
Qed.

Lemma validate_ship_vertically_eq (h : heap) (i j L : Z) :
  shape10 h b →
  BattleShipsQuantityValidator.validate_ship_vertically h b i j L
  = Ok (extends h b Vertical i j L).
Proof.
  intros Hs. unfold BattleShipsQuantityValidator.validate_ship_vertically.
  rewrite (res_map_ok _ (λ k, status h b (i + k) j)).
  2:{ apply Forall_forall. intros k _. by apply get_neighbor_cell_status_ok. }
  unfold mbind, res_mbind; simpl. f_equal.
  unfold extends. induction (range 1 L) as [|k ks IH]; [done|].
  rewrite fmap_cons. simpl. f_equal. exact IH.
Qed.

Lemma validate_ship_horizontally_eq (h : heap) (i j L : Z) :
  shape10 h b →
  BattleShipsQuantityValidator.validate_ship_horizontally h b i j L
  = Ok (extends h b Horizontal i j L).
Proof.
  intros Hs. unfold BattleShipsQuantityValidator.validate_ship_horizontally.
  rewrite (res_map_ok _ (λ k, status h b i (j + k))).
  2:{ apply Forall_forall. intros k _. by apply get_neighbor_cell_status_ok. }
  unfold mbind, res_mbind; simpl. f_equal.
  unfold extends. induction (range 1 L) as [|k ks IH]; [done|].
  rewrite fmap_cons. simpl. f_equal. exact IH.
Qed.

(** Clearing cells that are on the board succeeds and keeps the shape. *)
Lemma drop_cells_eq (a : axis) (i j : Z) (ks : list Z) (h : heap) :
  shape10 h b →
  Forall (λ k, on_board (offset a i j k).1 (offset a i j k).2 = true) ks →
  for_each ks (λ k, write_cell b (offset a i j k).1 (offset a i j k).2 0) h
  = (Ok tt, foldl (λ h' k, store_cell h' b (offset a i j k).1 (offset a i j k).2 0) h ks)
  ∧ shape10 (foldl (λ h' k, store_cell h' b (offset a i j k).1 (offset a i j k).2 0) h ks) b.
Proof.
  intros Hs Hks. apply (for_each_foldl (λ h', shape10 h' b)); [|done].
  intros k h' Hk Hs'. rewrite Forall_forall in Hks.
  apply Hks, on_board_spec in Hk as [Hi Hj].
  split; [by apply write_cell_ok|by apply store_cell_shape].
Qed.

Lemma drop_vertically_eq (h : heap) (i j L : Z) :
  shape10 h b → extends h b Vertical i j L = true →
  BattleShipsQuantityValidator.drop_vertically b i j L h
  = (Ok tt, clear b Vertical i j L h)
  ∧ shape10 (clear b Vertical i j L h) b.
Proof.
  intros Hs He. apply (drop_cells_eq Vertical i j (range 1 L) h Hs).
  apply Forall_forall. intros k Hk%elem_of_range. by eapply extends_on_board.
Qed.

Lemma drop_horizontally_eq (h h0 : heap) (i j L : Z) :
  shape10 h b → extends h0 b Horizontal i j L = true →
  BattleShipsQuantityValidator.drop_horizontally b i j L h
  = (Ok tt, clear b Horizontal i j L h)
  ∧ shape10 (clear b Horizontal i j L h) b.
Proof.
  intros Hs He. apply (drop_cells_eq Horizontal i j (range 1 L) h Hs).
  apply Forall_forall. intros k Hk%elem_of_range. by eapply extends_on_board.
Qed.

(** Clearing below the cell leaves the cells to its right as they were: they
    are in other columns. *)
Lemma extends_horizontal_clear_vertical (h : heap) (i j L L' : Z) :
  shape10 h b → extends h b Vertical i j L = true →
  extends (clear b Vertical i j L h) b Horizontal i j L'
  = extends h b Horizontal i j L'.
Proof.
  intros Hs He. unfold clear.
  assert (Forall (λ k, 1 ≤ k ∧ on_board (i + k) j = true) (range 1 L)) as Hks.
  { apply Forall_forall. intros k Hk%elem_of_range. split; [lia|].
    by apply (extends_on_board h Vertical i j L k). }
  clear He. revert h Hs. induction Hks as [|k ks [Hk Hon] _ IH]; intros h Hs; [done|].
  simpl. rewrite IH by by apply store_cell_shape.
  unfold extends. apply forallb_agree. intros k' Hk'%elem_of_range. simpl.
  unfold occupied. apply on_board_spec in Hon as [Hi Hj].
  rewrite status_store_cell_other_column by (done || lia). done.
Qed.

Lemma drop_ship_eq (h : heap) (i j L : Z) :
  shape10 h b →
  BattleShipsQuantityValidator.drop_ship b i j L h
  = (Ok (matches h b i j L), clear_matched b i j L h)
  ∧ shape10 (clear_matched b i j L h) b.
Proof.
  intros Hs. unfold BattleShipsQuantityValidator.drop_ship, clear_matched, matches.
  unfold mbind, m_mbind, m_bind, gets, mret, m_ret.
  rewrite validate_ship_vertically_eq by done.
  destruct (extends h b Vertical i j L) eqn:Ev.
  - destruct (drop_vertically_eq h i j L Hs Ev) as [-> Hs1].
    rewrite validate_ship_horizontally_eq by done.
    rewrite extends_horizontal_clear_vertical by done.
    destruct (extends h b Horizontal i j L) eqn:Eh; [|done].
    destruct (drop_horizontally_eq _ h i j L Hs1 Eh) as [-> Hs2]. done.
  - rewrite validate_ship_horizontally_eq by done.
    destruct (extends h b Horizontal i j L) eqn:Eh; [|done].
    destruct (drop_horizontally_eq _ h i j L Hs Eh) as [-> Hs2]. done.
Qed.

Lemma clear_matched_no_match (h : heap) (i j L : Z) :
  matches h b i j L = false → clear_matched b i j L h = h.
Proof.
  unfold matches, clear_matched. intros [-> ->]%orb_false_iff. done.
Qed.

End fleet.

(** ** The tally *)

(** The dictionary has exactly the keys 1, 2, 3 and 4. *)
Definition tally_keys (d : gmap Z Z) : Prop := dom d = dom FleetCounter.expected.

Lemma initial_counts_expected :
  BattleShipsQuantityValidator.initial_counts = FleetCounter.expected.
Proof. vm_compute. reflexivity. Qed.

Lemma tally_keys_lookup (d : gmap Z Z) (L : Z) :
  tally_keys d → is_Some (d !! L) ↔ 1 ≤ L ≤ 4.
Proof.
  intros Hd. rewrite <- elem_of_dom, Hd. unfold FleetCounter.expected.
  rewrite !dom_insert_L, dom_singleton_L.
  rewrite !elem_of_union, !elem_of_singleton. lia.
Qed.

Lemma tally_keys_expected : tally_keys FleetCounter.expected.
Proof. done. Qed.

Lemma tally_keys_alter (d : gmap Z Z) (f : Z → Z) (L : Z) :
  tally_keys d → tally_keys (alter f L d).
Proof. unfold tally_keys. by rewrite dom_alter_L. Qed.

Lemma decrement_eq (d : gmap Z Z) (L : Z) :
  tally_keys d → 1 ≤ L ≤ 4 →
  BattleShipsQuantityValidator.decrement L d
  = (Ok tt, alter (λ count, count - 1) L d).
Proof.
  intros Hd HL. apply (tally_keys_lookup d L Hd) in HL as [c Hc].
  unfold BattleShipsQuantityValidator.decrement. rewrite Hc. f_equal.
  apply map_eq. intros k. destruct (decide (k = L)) as [->|Hne].
  - by rewrite lookup_insert_eq, lookup_alter_eq, Hc.
  - by rewrite lookup_insert_ne, lookup_alter_ne.
Qed.

Lemma all_zero_complete (d : gmap Z Z) :
  tally_keys d →
  BattleShipsQuantityValidator.all_zero d = FleetCounter.complete d.
Proof.
  intros Hd. apply eq_true_iff_eq.
  unfold BattleShipsQuantityValidator.all_zero, FleetCounter.complete.
  rewrite !forallb_forall. split.
  - intros H L HL. apply bool_decide_eq_true.
    rewrite <- list_elem_of_In, elem_of_range in HL.
    assert (1 ≤ L ≤ 4) as HL' by lia.
    apply (tally_keys_lookup d L Hd) in HL' as [c Hc]. rewrite Hc. f_equal.
    apply Z.eqb_eq, H, list_elem_of_In, list_elem_of_fmap.
    exists (L, c). split; [done|]. by apply elem_of_map_to_list.
  - intros H c Hin. apply Z.eqb_eq.
    apply list_elem_of_In, list_elem_of_fmap in Hin as ([k c'] & -> & Hk). simpl.
    apply elem_of_map_to_list in Hk.
    assert (1 ≤ k ≤ 4) as Hk' by (apply (tally_keys_lookup d k Hd); eauto).
    specialize (H k). rewrite <- list_elem_of_In, elem_of_range in H.
    assert (1 ≤ k < 5) as Hk'' by lia.
    apply H, bool_decide_eq_true in Hk''. congruence.
Qed.

(** ** The scan *)

Section scan.
Context (b : board).

Import FleetCounter.

Lemma ship_length_range (h : heap) (i j : Z) : 1 ≤ ship_length h b i j ≤ 4.
Proof.
  unfold ship_length.
  destruct (matches h b i j 4), (matches h b i j 3), (matches h b i j 2); lia.
Qed.

Lemma clear_matched_one (h : heap) (i j : Z) : clear_matched b i j 1 h = h.
Proof. done. Qed.

(** The state the scan keeps: a working copy of the required shape and a
    tally with its four keys. *)
Definition scan_inv (s : list (list Z) * gmap Z Z) : Prop :=
  shape10 s.1 b ∧ tally_keys s.2.

Lemma step_inv (i j : Z) (s : list (list Z) * gmap Z Z) :
  scan_inv s → scan_inv (step b i j s).
Proof.
  intros [Hs Hd]. unfold step. destruct (occupied s.1 b i j); [|done].
  split; simpl.
  - by apply drop_ship_eq.
  - by apply tally_keys_alter.
Qed.

(** The body of the inner loop is one step of the specification's scan. *)
Lemma visit_eq (i j : Z) (s : list (list Z) * gmap Z Z) :
  scan_inv s → 0 ≤ i < 10 → 0 ≤ j < 10 →
  BattleShipsQuantityValidator.visit b i j s = (Ok tt, step b i j s).
Proof.
  destruct s as [h d]. intros [Hs Hd] Hi Hj. simpl in Hs, Hd.
  unfold BattleShipsQuantityValidator.visit, step, inspect_cell.
  unfold mbind at 1, m_mbind at 1, m_bind at 1, gets at 1. simpl.
  rewrite read_cell_ok by done.
  unfold occupied. rewrite status_on_board by done.
  destruct (truthy (cell_at h b i j)); simpl; [|done].
  unfold BattleShipsQuantityValidator.drop_flagman,
    BattleShipsQuantityValidator.drop_cruiser,
    BattleShipsQuantityValidator.drop_destroyer.
  unfold mbind, m_mbind, m_bind, on_heap, on_counts, ship_length.
  destruct (drop_ship_eq b h i j 4 Hs) as [-> _].
  destruct (matches h b i j 4) eqn:E4.
  { rewrite decrement_eq by (done || lia). done. }
  rewrite (clear_matched_no_match b h i j 4 E4).
  destruct (drop_ship_eq b h i j 3 Hs) as [-> _].
  destruct (matches h b i j 3) eqn:E3.
  { rewrite decrement_eq by (done || lia). done. }
  rewrite (clear_matched_no_match b h i j 3 E3).
  destruct (drop_ship_eq b h i j 2 Hs) as [-> _].
  destruct (matches h b i j 2) eqn:E2.
  { rewrite decrement_eq by (done || lia). done. }
  rewrite (clear_matched_no_match b h i j 2 E2).
  rewrite decrement_eq by (done || lia). done.
Qed.

Lemma foldl_enumerate {S A} (g : S → Z → S) (xs : list A) (s : S) :
  foldl (λ s' '(k, _), g s' k) s (enumerate xs)
  = foldl g s (seqZ 0 (Z.of_nat (length xs))).
Proof.
  unfold enumerate. generalize 0. revert s.
  induction xs as [|x xs IH]; intros s a; [done|].
  rewrite length_cons, Nat2Z.inj_succ, seqZ_cons by lia. simpl.
  replace (Z.pred (Z.succ (Z.of_nat (length xs)))) with (Z.of_nat (length xs)) by lia.
  apply IH.
Qed.

Lemma scan_row_eq (i : Z) (s : list (list Z) * gmap Z Z) :
  scan_inv s → 0 ≤ i < 10 →
  for_each (enumerate (s.1 !!! (b !!! Z.to_nat i)))
    (λ '(j_index, _), BattleShipsQuantityValidator.visit b i j_index) s
  = (Ok tt, scan_row b i s)
  ∧ scan_inv (scan_row b i s).
Proof.
  intros Hinv Hi. rewrite for_each_enumerate.
  rewrite (shape10_row _ _ i (proj1 Hinv) Hi).
  apply (for_each_foldl scan_inv); [|done].
  intros j s' Hj%elem_of_seqZ Hinv'. split.
  - apply visit_eq; [done|done|lia].
  - by apply step_inv.
Qed.

Lemma scan_eq (s : list (list Z) * gmap Z Z) :
  scan_inv s →
  for_each (enumerate b) (λ '(i_index, column),
    row ← gets (λ s', Ok (s'.1 !!! column));
    for_each (enumerate (row : list Z)) (λ '(j_index, _),
      BattleShipsQuantityValidator.visit b i_index j_index)) s
  = (Ok tt, scan b s)
  ∧ scan_inv (scan b s).
Proof.
  intros Hinv. unfold scan.
  assert (length b = 10%nat) as Hlen by apply Hinv.
  change (range 0 10) with (seqZ 0 (Z.of_nat 10)). rewrite <- Hlen.
  rewrite <- (foldl_enumerate (λ s' i, scan_row b i s')).
  apply (for_each_foldl scan_inv); [|done].
  intros [i r] s' [Hi Hr]%elem_of_enumerate Hinv'.
  pose proof (lookup_lt_Some _ _ _ Hr) as Hlt.
  unfold mbind, m_mbind, m_bind, gets.
  rewrite <- (list_lookup_total_correct _ _ _ Hr).
  apply scan_row_eq; [done|lia].
Qed.

(** The code's [validate] computes what the specification describes. *)
Lemma quantity_validate_eq (h : list (list Z)) :
  shape10 h b →
  BattleShipsQuantityValidator.validate b (h, BattleShipsQuantityValidator.initial_counts)
  = ((FleetCounter.validate h b).1, scan b (h, expected)).
Proof.
  intros Hs. rewrite initial_counts_expected.
  unfold BattleShipsQuantityValidator.validate, FleetCounter.validate.
  unfold mbind at 1, m_mbind at 1, m_bind at 1.
  destruct (scan_eq (h, expected)) as [-> [Hs' Hd']]; [by split|].
  generalize dependent (scan b (h, expected)). intros [h' d'] Hs' Hd'.
  unfold mbind, m_mbind, m_bind, gets. cbn [fst snd] in *.
  rewrite all_zero_complete by done.
  destruct (complete d'); done.
Qed.

End scan.

(** ** The deep copy *)

(** The memo table of a copy in progress: [h0] is the store the copy started
    from, [h] the store so far.  Every entry maps an object of [h0] to a new
    object with the same contents, and no two objects share a copy. *)
Definition memo_ok (memo : gmap nat nat) (h0 h : list (list Z)) : Prop :=
  (∀ r r', memo !! r = Some r' →
     (r < length h0)%nat ∧ (length h0 ≤ r' < length h)%nat ∧ h !!! r' = h0 !!! r)
  ∧ (∀ r1 r2 r', memo !! r1 = Some r' → memo !! r2 = Some r' → r1 = r2).

Lemma memo_ok_empty (h0 : list (list Z)) : memo_ok ∅ h0 h0.
Proof. split; intros *; rewrite lookup_empty; done. Qed.

Lemma lookup_total_app_l (h ext : list (list Z)) (r : nat) :
  (r < length h)%nat → (h ++ ext) !!! r = h !!! r.
Proof. intros Hr. by rewrite !list_lookup_total_alt, lookup_app_l. Qed.

Lemma deepcopy_rows_spec (h0 : list (list Z)) (b : list nat) :
  ∀ (memo : gmap nat nat) (ext : list (list Z)),
  memo_ok memo h0 (h0 ++ ext) → wf_board h0 b →
  ∃ ext' memo',
    (deepcopy_rows memo b (h0 ++ ext)).2 = h0 ++ ext'
    ∧ memo ⊆ memo'
    ∧ memo_ok memo' h0 (h0 ++ ext')
    ∧ Forall2 (λ r r', memo' !! r = Some r') b (deepcopy_rows memo b (h0 ++ ext)).1.
Proof.
  induction b as [|r b IH]; intros memo ext Hmemo Hwf; simpl.
  - exists ext, memo. split_and!; [done|done|done|constructor].
  - apply Forall_cons in Hwf as [Hr Hwf].
    destruct (memo !! r) as [r'|] eqn:Em.
    + destruct (IH memo ext Hmemo Hwf) as (ext' & memo' & Hh & Hsub & Hok & Hall).
      destruct (deepcopy_rows memo b (h0 ++ ext)) as [out h'] eqn:E.
      simpl in *. exists ext', memo'. split_and!; [done|done|done|].
      constructor; [|done]. by eapply lookup_weaken.
    + set (r' := length (h0 ++ ext)).
      assert (memo_ok (<[r:=r']> memo) h0 (h0 ++ (ext ++ [h0 !!! r]))) as Hmemo1.
      { destruct Hmemo as [Hent Hinj]. split.
        - intros ra ra'. rewrite lookup_insert.
          destruct (decide (r = ra)) as [<-|Hne]; simpl.
          + intros [= <-]. subst r'.
            split_and!; [done|rewrite length_app; lia|rewrite !length_app; simpl; lia|].
            rewrite app_assoc. by apply list_lookup_total_middle.
          + intros Hra. destruct (Hent _ _ Hra) as (H1 & H2 & H3).
            rewrite !length_app in *. simpl. split_and!; [done|lia|lia|].
            rewrite app_assoc, lookup_total_app_l; [done|]. rewrite length_app. lia.
        - intros r1 r2 rc. rewrite !lookup_insert.
          destruct (decide (r = r1)) as [<-|Hne1], (decide (r = r2)) as [<-|Hne2];
            simpl; try done.
          + intros [= <-] H2. apply Hent in H2. subst r'. lia.
          + intros H1 [= <-]. apply Hent in H1. subst r'. lia.
          + apply Hinj. }
      rewrite (lookup_total_app_l h0 ext r Hr).
      rewrite <- app_assoc.
      destruct (IH _ _ Hmemo1 Hwf) as (ext' & memo' & Hh & Hsub & Hok & Hall).
      fold r'.
      destruct (deepcopy_rows (<[r:=r']> memo) b (h0 ++ ext ++ [h0 !!! r]))
        as [out h'] eqn:E.
      simpl in *. exists ext', memo'. split_and!; [done| |done|].
      * etrans; [|exact Hsub]. by apply insert_subseteq.
      * constructor; [|done].
        eapply lookup_weaken; [|exact Hsub]. by rewrite lookup_insert_eq.
Qed.

(** What [deepcopy] gives on a well-formed board. *)
Record copy_of (h0 : list (list Z)) (b : list nat)
    (h' : list (list Z)) (b' : list nat) : Prop := {
  copy_heap : ∃ ext, h' = h0 ++ ext;
  copy_length : length b' = length b;
  copy_fresh : Forall (λ r', (length h0 ≤ r' < length h')%nat) b';
  copy_contents : contents h' b' = contents h0 b;
  copy_alias : ∀ i i' r1 r2 r1' r2',
    b !! i = Some r1 → b !! i' = Some r2 →
    b' !! i = Some r1' → b' !! i' = Some r2' →
    (r1' = r2' ↔ r1 = r2);
}.

Lemma deepcopy_rows_copy_of (h0 : list (list Z)) (b : list nat) :
  wf_board h0 b →
  copy_of h0 b (deepcopy_rows ∅ b h0).2 (deepcopy_rows ∅ b h0).1.
Proof.
  intros Hwf.
  destruct (deepcopy_rows_spec h0 b ∅ [] ) as (ext' & memo' & Hh & _ & [Hent Hinj] & Hall).
  { rewrite app_nil_r. apply memo_ok_empty. }
  { done. }
  rewrite app_nil_r in Hh, Hall.
  destruct (deepcopy_rows ∅ b h0) as [b' h'] eqn:E. simpl in *. subst h'.
  split.
  - eauto.
  - symmetry. by eapply Forall2_length.
  - apply Forall_forall. intros r' Hr'.
    apply list_elem_of_lookup in Hr' as [i Hi].
    destruct (Forall2_lookup_r _ _ _ _ _ Hall Hi) as (r & Hr & Hm).
    by destruct (Hent _ _ Hm) as (_ & ? & _).
  - unfold contents. apply list_eq. intros i. rewrite !list_lookup_fmap.
    destruct (b' !! i) as [r'|] eqn:Hi; simpl.
    + destruct (Forall2_lookup_r _ _ _ _ _ Hall Hi) as (r & Hr & Hm).
      rewrite Hr. simpl. f_equal. by destruct (Hent _ _ Hm) as (_ & _ & ?).
    + apply lookup_ge_None in Hi. rewrite <- (Forall2_length _ _ _ Hall) in Hi.
      apply lookup_ge_None in Hi. by rewrite Hi.
  - intros i i' r1 r2 r1' r2' H1 H2 H1' H2'.
    pose proof (Forall2_lookup_lr _ _ _ _ _ _ Hall H1 H1') as Hm1.
    pose proof (Forall2_lookup_lr _ _ _ _ _ _ Hall H2 H2') as Hm2.
    simpl in *. split.
    + intros <-. by eapply Hinj.
    + intros <-. congruence.
Qed.

(** The shape of a board is a property of the matrix it denotes. *)
Lemma shape10_contents (h h' : list (list Z)) (b b' : list nat) :
  contents h' b' = contents h b → shape10 h b → shape10 h' b'.
Proof.
  unfold contents, shape10. intros Hc [Hlen Hrows].
  assert (length b' = length b) as Hl.
  { by rewrite <- (length_fmap (λ r, h' !!! r) b'), Hc, length_fmap. }
  split; [lia|].
  apply Forall_lookup. intros i r' Hi.
  assert (is_Some (b !! i)) as [r Hr].
  { apply lookup_lt_is_Some. rewrite <- Hl. by eapply lookup_lt_Some. }
  assert (((λ r, h' !!! r) <$> b') !! i = ((λ r, h !!! r) <$> b) !! i) as Heq
    by by rewrite Hc.
  rewrite !list_lookup_fmap, Hi, Hr in Heq. simpl in Heq. injection Heq as ->.
  rewrite Forall_lookup in Hrows. by apply (Hrows i r).
Qed.

Lemma copy_of_shape (h0 h' : list (list Z)) (b b' : list nat) :
  copy_of h0 b h' b' → shape10 h0 b → shape10 h' b'.
Proof. intros Hc. apply shape10_contents, Hc. Qed.

(** ** The three checks in sequence *)

(** The fleet counter on a board of the required shape: it copies the board,
    scans the copy, and succeeds or raises [ValueError]. *)
Lemma quantity_construct_and_validate (h : list (list Z)) (field : list nat) :
  shape10 h field →
  construct_and_validate BattleShipsQuantityValidator field h
  = ((FleetCounter.validate (deepcopy_rows ∅ field h).2 (deepcopy_rows ∅ field h).1).1,
     (FleetCounter.scan (deepcopy_rows ∅ field h).1
        ((deepcopy_rows ∅ field h).2, FleetCounter.expected)).1).
Proof.
  intros Hs. unfold construct_and_validate, BattleShipsQuantityValidator.init, deepcopy.
  unfold mbind, m_mbind, m_bind, mret, m_ret.
  pose proof (deepcopy_rows_copy_of h field (shape10_wf _ _ Hs)) as Hcopy.
  destruct (deepcopy_rows ∅ field h) as [b' h'] eqn:E. cbn [fst snd] in *.
  rewrite quantity_validate_eq by by eapply copy_of_shape.
  destruct (FleetCounter.scan b' (h', FleetCounter.expected)) as [h2 d2]. done.
Qed.

(** The outcome of [validate_battlefield], by cases on the three checks. *)
Definition outcome (field : list nat) (h : list (list Z)) (log : list string)
    : res bool * world :=
  match BoardValidator.validate h field with
  | Raise (ValueError msg) => (Ok false, (h, log ++ [msg]))
  | Raise e => (Raise e, (h, log))
  | Ok _ =>
      match BattleShipsValidator.validate h field with
      | Raise (ValueError msg) => (Ok false, (h, log ++ [msg]))
      | Raise e => (Raise e, (h, log))
      | Ok _ =>
          match construct_and_validate BattleShipsQuantityValidator field h with
          | (Raise (ValueError msg), h') => (Ok false, (h', log ++ [msg]))
          | (Raise e, h') => (Raise e, (h', log))
          | (Ok _, h') => (Ok true, (h', log))
          end
      end
  end.

Lemma validate_battlefield_outcome (field : list nat) (h : list (list Z))
    (log : list string) :
  validate_battlefield field (h, log) = outcome field h log.
Proof.
  unfold validate_battlefield, validators, outcome, run_validators.
  change (construct_and_validate BoardValidator field h)
    with (BoardValidator.validate h field, h).
  change (construct_and_validate BattleShipsValidator field)
    with (λ h', (BattleShipsValidator.validate h' field, h')).
  cbv beta.
  destruct (BoardValidator.validate h field) as [?|[?| |]]; done.
Qed.

Lemma validate_battlefield_not_shape (field : list nat) (h : list (list Z))
    (log : list string) :
  ¬ shape10 h field →
  ∃ msg, (msg = "Board has wrong columns count" ∨ msg = "Column has wrong rows count")
    ∧ validate_battlefield field (h, log) = (Ok false, (h, log ++ [msg])).
Proof.
  intros Hn. rewrite validate_battlefield_outcome. unfold outcome.
  destruct (board_validate_not_shape h field Hn) as [-> | ->]; eauto.
Qed.

Lemma validate_battlefield_contact_fails (field : list nat) (h : list (list Z))
    (log : list string) (msg : string) :
  shape10 h field →
  BattleShipsValidator.validate h field = Raise (ValueError msg) →
  validate_battlefield field (h, log) = (Ok false, (h, log ++ [msg])).
Proof.
  intros Hs Hc. rewrite validate_battlefield_outcome. unfold outcome.
  by rewrite board_validate_shape, Hc.
Qed.

Lemma validate_battlefield_fleet (field : list nat) (h : list (list Z))
    (log : list string) :
  shape10 h field →
  BattleShipsValidator.validate h field = Ok true →
  validate_battlefield field (h, log) =
  let b' := (deepcopy_rows ∅ field h).1 in
  let s := FleetCounter.scan b' ((deepcopy_rows ∅ field h).2, FleetCounter.expected) in
  if FleetCounter.complete s.2 then (Ok true, (s.1, log))
  else (Ok false, (s.1, log ++ ["Ships are incorrect"])).
Proof.
  intros Hs Hc. rewrite validate_battlefield_outcome. unfold outcome.
  rewrite board_validate_shape, Hc by done.
  rewrite quantity_construct_and_validate by done.
  unfold FleetCounter.validate. cbv zeta. cbn [fst snd].
  destruct (FleetCounter.complete _); done.
Qed.

Lemma board_validate_true (h : list (list Z)) (b : list nat) (r : bool) :
  BoardValidator.validate h b = Ok r → r = true ∧ shape10 h b.
Proof.
  intros Hv. destruct (shape10_dec h b) as [Hs|Hn].
  - rewrite board_validate_shape in Hv by done. by injection Hv as <-.
  - destruct (board_validate_not_shape h b Hn) as [Hr|Hr]; congruence.
Qed.

Lemma contact_validate_true (h : list (list Z)) (b : list nat) (r : bool) :
  BattleShipsValidator.validate h b = Ok r → r = true.
Proof.
  unfold BattleShipsValidator.validate, mbind, res_mbind.
  destruct (res_for_each _ _); simpl; congruence.
Qed.

Lemma contact_validate_cases (h : list (list Z)) (b : list nat) :
  shape10 h b →
  BattleShipsValidator.validate h b = Ok true
  ∨ ∃ msg, BattleShipsValidator.validate h b = Raise (ValueError msg).
Proof.
  intros Hs.
  destruct (handled_cases _ (contact_validate_handled h b Hs)) as [[r Hr]|Hr]; [|by right].
  left. by rewrite Hr, (contact_validate_true _ _ _ Hr).
Qed.

Lemma quantity_construct_and_validate_cases (h : list (list Z)) (field : list nat) :
  shape10 h field →
  ∃ h', construct_and_validate BattleShipsQuantityValidator field h = (Ok true, h')
      ∨ construct_and_validate BattleShipsQuantityValidator field h
        = (Raise (ValueError "Ships are incorrect"), h').
Proof.
  intros Hs. rewrite quantity_construct_and_validate by done.
  unfold FleetCounter.validate. cbv zeta. cbn [fst snd].
  destruct (FleetCounter.complete _); eauto.
Qed.

(** * The claims *)

(** ** Boards used as examples *)

Definition empty_row : list Z := [0; 0; 0; 0; 0; 0; 0; 0; 0; 0].

(** A legal fleet. *)
Definition legal_fleet : list (list Z) :=
  [ [1; 0; 0; 0; 0; 1; 1; 0; 0; 0];
    [1; 0; 1; 0; 0; 0; 0; 0; 1; 0];
    [1; 0; 1; 0; 1; 1; 1; 0; 1; 0];
    [1; 0; 0; 0; 0; 0; 0; 0; 0; 0];
    [0; 0; 0; 0; 0; 0; 0; 0; 1; 0];
    [0; 0; 0; 0; 1; 1; 1; 0; 0; 0];
    [0; 0; 0; 0; 0; 0; 0; 0; 1; 0];
    [0; 0; 0; 1; 0; 0; 0; 0; 0; 0];
    [0; 0; 0; 0; 0; 0; 0; 1; 0; 0];
    empty_row ].

(** Two occupied cells that touch by a corner: (0,0) and (1,1). *)
Definition diagonal_pair : list (list Z) :=
  [ [1; 0; 0; 0; 0; 0; 0; 0; 0; 0];
    [0; 1; 0; 0; 0; 0; 0; 0; 0; 0];
    empty_row; empty_row; empty_row; empty_row;
    empty_row; empty_row; empty_row; empty_row ].

(** A bent ship: (0,0), (0,1), (1,1) are occupied, so (0,1) has one
    neighbour in its row and one in its column. *)
Definition bent_ship : list (list Z) :=
  [ [1; 1; 0; 0; 0; 0; 0; 0; 0; 0];
    [0; 1; 0; 0; 0; 0; 0; 0; 0; 0];
    empty_row; empty_row; empty_row; empty_row;
    empty_row; empty_row; empty_row; empty_row ].

(** A straight run of [n] cells in the first row, alone on the board. *)
Definition single_run (n : nat) : list (list Z) :=
  (replicate n 1 ++ replicate (10 - n) 0) :: replicate 9 empty_row.

(** A board with a run of five cells (row 0), two runs of three, three runs
    of two and three single cells: twenty occupied cells, no ship of four. *)
Definition five_run_fleet : list (list Z) :=
  [ [1; 1; 1; 1; 1; 0; 0; 0; 0; 0];
    [0; 0; 0; 0; 0; 0; 1; 1; 1; 0];
    [1; 1; 1; 0; 0; 0; 0; 0; 0; 0];
    [0; 0; 0; 0; 1; 1; 0; 1; 1; 0];
    [1; 1; 0; 0; 0; 0; 0; 0; 0; 0];
    [0; 0; 0; 1; 0; 1; 0; 1; 0; 0];
    empty_row; empty_row; empty_row; empty_row ].

(** The ten row positions of a board made of ten separate row objects. *)
Definition ten_rows : list nat := seq 0 10.

Lemma shape10_ten_rows (m : list (list Z)) :
  length m = 10%nat → Forall (λ row, length row = 10%nat) m → shape10 m ten_rows.
Proof.
  intros Hlen Hrows. split; [done|].
  apply Forall_forall. intros r Hr. unfold ten_rows in Hr.
  apply elem_of_seq in Hr. rewrite Forall_lookup in Hrows.
  apply (Hrows r). apply list_lookup_lookup_total_lt. lia.
Qed.

(** The cells of a board are all 0 or 1. *)
Definition is_binary (h : list (list Z)) (b : list nat) : bool :=
  forallb (forallb (λ z, (z =? 0) || (z =? 1))) (contents h b).

Lemma cell_at_contents (h : list (list Z)) (b : list nat) (i j : Z) :
  shape10 h b → 0 ≤ i < 10 → 0 ≤ j < 10 →
  (contents h b !! Z.to_nat i) ≫= (λ row, row !! Z.to_nat j) = Some (cell_at h b i j).
Proof.
  intros Hs Hi Hj. unfold contents, cell_at. rewrite list_lookup_fmap.
  rewrite (list_lookup_lookup_total_lt b (Z.to_nat i)) by (destruct Hs as [-> _]; lia).
  simpl. apply list_lookup_lookup_total_lt. rewrite shape10_row by done. lia.
Qed.

Lemma is_binary_status (h : list (list Z)) (b : list nat) (i j : Z) :
  shape10 h b → is_binary h b = true → status h b i j = 0 ∨ status h b i j = 1.
Proof.
  intros Hs Hb. unfold status. destruct (on_board i j) eqn:E; [|by left].
  apply on_board_spec in E as [Hi Hj].
  pose proof (cell_at_contents h b i j Hs Hi Hj) as Hc.
  destruct (contents h b !! Z.to_nat i) as [row|] eqn:Hrow; [|done]. simpl in Hc.
  unfold is_binary in Hb. rewrite forallb_forall in Hb.
  apply list_elem_of_lookup_2, list_elem_of_In, Hb in Hrow.
  rewrite forallb_forall in Hrow.
  apply list_elem_of_lookup_2, list_elem_of_In, Hrow in Hc.
  apply orb_true_iff in Hc as [Hc%Z.eqb_eq|Hc%Z.eqb_eq]; auto.
Qed.

(** ** Shape (C5) *)

(** C5.  A board whose number of rows is not 10, or one of whose rows has a
    length other than 10, makes [validate_battlefield] return [False]: the
    shape check raises, its message is logged, and nothing else happens (the
    store is the one the call started in: no later checker ran and copied
    the board). *)
Theorem wrong_shape_is_rejected (field : list nat) (h : list (list Z))
    (log : list string) :
  length field ≠ 10%nat ∨ (∃ r, r ∈ field ∧ length (h !!! r) ≠ 10%nat) →
  ∃ msg,
    (msg = "Board has wrong columns count" ∨ msg = "Column has wrong rows count")
    ∧ BoardValidator.validate h field = Raise (ValueError msg)
    ∧ validate_battlefield field (h, log) = (Ok false, (h, log ++ [msg])).
Proof.
  intros Hbad.
  assert (¬ shape10 h field) as Hn.
  { intros [Hlen Hrows]. destruct Hbad as [Hbad|(r & Hr & Hbad)]; [done|].
    rewrite Forall_forall in Hrows. by apply Hbad, Hrows. }
  destruct (board_validate_not_shape h field Hn) as [Hv|Hv].
  - eexists. split; [by left|]. split; [exact Hv|].
    rewrite validate_battlefield_outcome. unfold outcome. by rewrite Hv.
  - eexists. split; [by right|]. split; [exact Hv|].
    rewrite validate_battlefield_outcome. unfold outcome. by rewrite Hv.
Qed.

(** A board of nine rows. *)
Lemma wrong_shape_is_rejected_witness :
  ∃ msg,
    (msg = "Board has wrong columns count" ∨ msg = "Column has wrong rows count")
    ∧ BoardValidator.validate (replicate 9 empty_row) (seq 0 9) = Raise (ValueError msg)
    ∧ validate_battlefield (seq 0 9) (replicate 9 empty_row, [])
      = (Ok false, (replicate 9 empty_row, [] ++ [msg])).
Proof.
  apply (wrong_shape_is_rejected (seq 0 9) (replicate 9 empty_row) []).
  left. simpl. lia.
Defined.

(** ** Order of the checks (C8) *)

(** The fleet counter's constructor never raises: it copies the board and
    seeds the tally. *)
Lemma quantity_init_returns (field : list nat) (h : list (list Z)) :
  BattleShipsQuantityValidator.init field h
  = (Ok ((deepcopy_rows ∅ field h).1, BattleShipsQuantityValidator.initial_counts),
     (deepcopy_rows ∅ field h).2).
Proof.
  unfold BattleShipsQuantityValidator.init, deepcopy.
  unfold mbind, m_mbind, m_bind, mret, m_ret.
  by destruct (deepcopy_rows ∅ field h).
Qed.

(** The only value the fleet counter's [validate] returns is [True]. *)
Lemma quantity_validate_true (b : list nat) (s s' : list (list Z) * gmap Z Z)
    (r : bool) :
  BattleShipsQuantityValidator.validate b s = (Ok r, s') → r = true.
Proof.
  unfold BattleShipsQuantityValidator.validate.
  unfold mbind, m_mbind, m_bind, gets, raise, mret, m_ret.
  destruct (for_each _ _ s) as [[[]|e] s1]; [|done].
  destruct (negb _); [done|]. by intros [= <- _].
Qed.

(** C8.  [validate_battlefield] runs the shape check, then the contact check,
    then the fleet counter: the counter is constructed ([__init__], which
    copies the board) and its [validate] is run on the copy.  The first
    [ValueError] ends the call: its message is appended to the log and the
    result is [False], whatever the later checks would say; the store is then
    the one reached so far, which is the initial store when the fleet counter
    was never constructed.  The result is [True] only when all three checks
    return, the third being the run of the counter's [validate] on the board
    its constructor made. *)
Theorem checks_run_in_order (field : list nat) (h : list (list Z)) (log : list string) :
  (∀ msg, BoardValidator.validate h field = Raise (ValueError msg) →
     validate_battlefield field (h, log) = (Ok false, (h, log ++ [msg])))
  ∧ (∀ r msg, BoardValidator.validate h field = Ok r →
       BattleShipsValidator.validate h field = Raise (ValueError msg) →
       validate_battlefield field (h, log) = (Ok false, (h, log ++ [msg])))
  ∧ (∀ r1 r2 msg self_board counts h1 h2 d2,
       BoardValidator.validate h field = Ok r1 →
       BattleShipsValidator.validate h field = Ok r2 →
       BattleShipsQuantityValidator.init field h = (Ok (self_board, counts), h1) →
       BattleShipsQuantityValidator.validate self_board (h1, counts)
         = (Raise (ValueError msg), (h2, d2)) →
       validate_battlefield field (h, log) = (Ok false, (h2, log ++ [msg])))
  ∧ (∀ r1 r2 r3 self_board counts h1 h2 d2,
       BoardValidator.validate h field = Ok r1 →
       BattleShipsValidator.validate h field = Ok r2 →
       BattleShipsQuantityValidator.init field h = (Ok (self_board, counts), h1) →
       BattleShipsQuantityValidator.validate self_board (h1, counts)
         = (Ok r3, (h2, d2)) →
       validate_battlefield field (h, log) = (Ok true, (h2, log)))
  ∧ ((validate_battlefield field (h, log)).1 = Ok true →
       BoardValidator.validate h field = Ok true
       ∧ BattleShipsValidator.validate h field = Ok true
       ∧ ∃ self_board counts h1 h2 d2,
           BattleShipsQuantityValidator.init field h = (Ok (self_board, counts), h1)
           ∧ BattleShipsQuantityValidator.validate self_board (h1, counts)
             = (Ok true, (h2, d2))
           ∧ validate_battlefield field (h, log) = (Ok true, (h2, log))).
Proof.
  rewrite validate_battlefield_outcome. unfold outcome. split_and!.
  - by intros msg ->.
  - by intros r msg -> ->.
  - intros r1 r2 msg b' counts h1 h2 d2 -> -> Hinit Hval.
    unfold construct_and_validate. rewrite Hinit. cbv beta iota. by rewrite Hval.
  - intros r1 r2 r3 b' counts h1 h2 d2 -> -> Hinit Hval.
    unfold construct_and_validate. rewrite Hinit. cbv beta iota. by rewrite Hval.
  - destruct (BoardValidator.validate h field) as [r1|[?| |]] eqn:E1; [|done..].
    destruct (BattleShipsValidator.validate h field) as [r2|[?| |]] eqn:E2; [|done..].
    apply board_validate_true in E1 as [-> Hs].
    apply contact_validate_true in E2 as ->.
    unfold construct_and_validate. rewrite quantity_init_returns. cbv beta iota.
    destruct (BattleShipsQuantityValidator.validate _ _) as [r [h2 d2]] eqn:Ev.
    destruct r as [r|[?| |]]; [|done..].
    intros _. split_and!; [done|done|].
    rewrite (quantity_validate_true _ _ _ _ Ev) in Ev.
    eexists _, _, _, h2, d2. split_and!; [reflexivity|exact Ev|done].
Qed.

(** ** Totality (C10) *)

Lemma validate_battlefield_returns (field : list nat) (h : list (list Z))
    (log : list string) :
  ∃ r h' log', validate_battlefield field (h, log) = (Ok r, (h', log')).
Proof.
  destruct (shape10_dec h field) as [Hs|Hn].
  - destruct (contact_validate_cases h field Hs) as [Hc|[msg Hc]].
    + rewrite validate_battlefield_fleet by done. cbv zeta.
      destruct (FleetCounter.complete _); eauto.
    + rewrite (validate_battlefield_contact_fails _ _ _ _ Hs Hc). eauto.
  - destruct (validate_battlefield_not_shape field h log Hn) as (msg & _ & ->). eauto.
Qed.

(** C10.  For every board in every store, [validate_battlefield] returns a
    boolean: no [IndexError] or [KeyError] escapes.  A neighbour lookup
    outside the board answers 0 without indexing, and on a board of the
    required shape [drop_ship] returns, its assignments falling on cells the
    preceding lookups found occupied, hence on the board. *)
Theorem validate_battlefield_total (field : list nat) (h : list (list Z))
    (log : list string) :
  (∃ r h' log', validate_battlefield field (h, log) = (Ok r, (h', log')))
  ∧ (∀ i j, on_board i j = false → get_neighbor_cell_status h field i j = Ok 0)
  ∧ (∀ i j length, shape10 h field →
       ∃ r h', BattleShipsQuantityValidator.drop_ship field i j length h = (Ok r, h')).
Proof.
  split_and!.
  - apply validate_battlefield_returns.
  - apply get_neighbor_cell_status_outside.
  - intros i j L Hs. destruct (drop_ship_eq field h i j L Hs) as [-> _]. eauto.
Qed.

(** ** The orthogonal rule (C3) *)

(** The number of occupied cells among the four orthogonal neighbours. *)
Definition occupied_neighbors (h : list (list Z)) (b : list nat) (i j : Z) : Z :=
  Z.b2z (occupied h b (i - 1) j) + Z.b2z (occupied h b (i + 1) j)
  + Z.b2z (occupied h b i (j - 1)) + Z.b2z (occupied h b i (j + 1)).

(** The occupied neighbours include a pair on one line through the cell. *)
Definition collinear_pair (h : list (list Z)) (b : list nat) (i j : Z) : bool :=
  (occupied h b (i - 1) j && occupied h b (i + 1) j)
  || (occupied h b i (j - 1) && occupied h b i (j + 1)).

Lemma neighbors_ok_binary (h : list (list Z)) (b : list nat) (i j : Z) :
  shape10 h b → is_binary h b = true →
  neighbors_ok h b i j =
  (occupied_neighbors h b i j <=? 1)
  || ((occupied_neighbors h b i j =? 2) && collinear_pair h b i j).
Proof.
  intros Hs Hb. unfold neighbors_ok, occupied_neighbors, collinear_pair, occupied.
  destruct (is_binary_status h b (i - 1) j Hs Hb) as [-> | ->],
    (is_binary_status h b (i + 1) j Hs Hb) as [-> | ->],
    (is_binary_status h b i (j - 1) Hs Hb) as [-> | ->],
    (is_binary_status h b i (j + 1) Hs Hb) as [-> | ->]; reflexivity.
Qed.

(** C3.  On a 10x10 board of 0/1 cells, for an occupied cell:
    with at most one occupied orthogonal neighbour the check of the
    neighbours accepts; with exactly two it accepts exactly when they are the
    pair before and after the cell on one line; with two that are not, or
    with three or four, it raises [ValueError] and [validate_battlefield]
    returns [False].  Neighbours outside the board count as empty
    ([occupied] is false there). *)
Theorem orthogonal_neighbors_rule (h : list (list Z)) (b : list nat)
    (log : list string) (i j : Z) :
  shape10 h b → is_binary h b = true → 0 ≤ i < 10 → 0 ≤ j < 10 →
  occupied h b i j = true →
  (occupied_neighbors h b i j ≤ 1 →
     BattleShipsValidator.check_if_neighbor_cells_set_up_correct h b i j = Ok true)
  ∧ (occupied_neighbors h b i j = 2 →
       (BattleShipsValidator.check_if_neighbor_cells_set_up_correct h b i j = Ok true
        ↔ collinear_pair h b i j = true))
  ∧ ((occupied_neighbors h b i j = 2 ∧ collinear_pair h b i j = false)
       ∨ 3 ≤ occupied_neighbors h b i j →
       (∃ msg, BattleShipsValidator.check_if_neighbor_cells_set_up_correct h b i j
               = Raise (ValueError msg))
       ∧ ∃ msg, validate_battlefield b (h, log) = (Ok false, (h, log ++ [msg])))
  ∧ (∀ i' j', on_board i' j' = false → occupied h b i' j' = false).
Proof.
  intros Hs Hb Hi Hj Hocc.
  rewrite check_neighbor_cells_eq by done.
  pose proof (neighbors_ok_binary h b i j Hs Hb) as Hok.
  split_and!.
  - intros HS. rewrite Hok. apply Z.leb_le in HS. by rewrite HS.
  - intros HS. rewrite Hok, HS. simpl.
    destruct (collinear_pair h b i j); split; congruence.
  - intros Hbad.
    assert (neighbors_ok h b i j = false) as Hno.
    { rewrite Hok. destruct Hbad as [[-> ->]|HS]; [done|].
      destruct (Z.leb_spec (occupied_neighbors h b i j) 1); [lia|].
      destruct (Z.eqb_spec (occupied_neighbors h b i j) 2); [lia|]. done. }
    rewrite Hno. split; [eauto|].
    destruct (contact_validate_fails h b Hs i j Hi Hj) as [msg Hmsg].
    { unfold cell_ok. by rewrite Hocc, Hno. }
    exists msg. by apply validate_battlefield_contact_fails.
  - intros i' j' Hout. unfold occupied, status. by rewrite Hout.
Qed.

(** The bent ship: the cell (0,1) has two occupied neighbours, not in line. *)
Lemma orthogonal_neighbors_rule_witness :
  (occupied_neighbors bent_ship ten_rows 0 1 ≤ 1 →
     BattleShipsValidator.check_if_neighbor_cells_set_up_correct bent_ship ten_rows 0 1
     = Ok true)
  ∧ (occupied_neighbors bent_ship ten_rows 0 1 = 2 →
       (BattleShipsValidator.check_if_neighbor_cells_set_up_correct bent_ship ten_rows 0 1
        = Ok true
        ↔ collinear_pair bent_ship ten_rows 0 1 = true))
  ∧ ((occupied_neighbors bent_ship ten_rows 0 1 = 2
      ∧ collinear_pair bent_ship ten_rows 0 1 = false)
       ∨ 3 ≤ occupied_neighbors bent_ship ten_rows 0 1 →
       (∃ msg, BattleShipsValidator.check_if_neighbor_cells_set_up_correct
                 bent_ship ten_rows 0 1 = Raise (ValueError msg))
       ∧ ∃ msg, validate_battlefield ten_rows (bent_ship, [])
                = (Ok false, (bent_ship, [] ++ [msg])))
  ∧ (∀ i' j', on_board i' j' = false → occupied bent_ship ten_rows i' j' = false).
Proof.
  apply (orthogonal_neighbors_rule bent_ship ten_rows [] 0 1).
  - apply shape10_ten_rows; [reflexivity|]. repeat constructor.
  - reflexivity.
  - lia.
  - lia.
  - reflexivity.
Defined.

(** ** The diagonal rule (C4) *)

(** Some diagonal neighbour of the cell is occupied. *)
Definition diagonal_contact (h : list (list Z)) (b : list nat) (i j : Z) : bool :=
  occupied h b (i - 1) (j + 1) || occupied h b (i - 1) (j - 1)
  || occupied h b (i + 1) (j + 1) || occupied h b (i + 1) (j - 1).

Lemma cross_ok_diagonal_contact (h : list (list Z)) (b : list nat) (i j : Z) :
  cross_ok h b i j = negb (diagonal_contact h b i j).
Proof.
  unfold cross_ok, diagonal_contact, occupied. simpl.
  by rewrite orb_false_r, !orb_assoc.
Qed.

(** C4.  On a 10x10 board, an occupied cell with an occupied diagonal
    neighbour fails the check of the diagonals, the contact checker raises
    [ValueError], and [validate_battlefield] returns [False]. *)
Theorem diagonal_contact_is_rejected (h : list (list Z)) (b : list nat)
    (log : list string) (i j : Z) :
  shape10 h b → 0 ≤ i < 10 → 0 ≤ j < 10 →
  occupied h b i j = true → diagonal_contact h b i j = true →
  BattleShipsValidator.check_if_cross_cells_set_up_correct h b i j
    = Raise (ValueError "Ship construction is wrong, ships are in contact by diagonal")
  ∧ (∃ msg, BattleShipsValidator.validate h b = Raise (ValueError msg))
  ∧ ∃ msg, validate_battlefield b (h, log) = (Ok false, (h, log ++ [msg])).
Proof.
  intros Hs Hi Hj Hocc Hdiag.
  assert (cross_ok h b i j = false) as Hno
    by by rewrite cross_ok_diagonal_contact, Hdiag.
  split_and!.
  - by rewrite check_cross_cells_eq, Hno.
  - apply (contact_validate_fails h b Hs i j Hi Hj).
    unfold cell_ok. by rewrite Hocc, Hno, andb_false_r.
  - destruct (contact_validate_fails h b Hs i j Hi Hj) as [msg Hmsg].
    { unfold cell_ok. by rewrite Hocc, Hno, andb_false_r. }
    exists msg. by apply validate_battlefield_contact_fails.
Qed.

(** The board with (0,0) and (1,1) occupied and every other cell empty. *)
Lemma diagonal_contact_is_rejected_witness :
  BattleShipsValidator.check_if_cross_cells_set_up_correct diagonal_pair ten_rows 0 0
    = Raise (ValueError "Ship construction is wrong, ships are in contact by diagonal")
  ∧ (∃ msg, BattleShipsValidator.validate diagonal_pair ten_rows = Raise (ValueError msg))
  ∧ ∃ msg, validate_battlefield ten_rows (diagonal_pair, [])
           = (Ok false, (diagonal_pair, [] ++ [msg])).
Proof.
  apply (diagonal_contact_is_rejected diagonal_pair ten_rows [] 0 0).
  - apply shape10_ten_rows; [reflexivity|]. repeat constructor.
  - lia.
  - lia.
  - reflexivity.
  - reflexivity.
Defined.

(** ** No bound on the length of a run (C9) *)

(** C9.  The contact checker accepts a board whose only occupied cells are a
    straight run of five cells; the same holds for runs of six to ten cells,
    so it bounds no ship length. *)
Theorem contact_check_accepts_long_runs :
  single_run 5 = [1; 1; 1; 1; 1; 0; 0; 0; 0; 0] :: replicate 9 empty_row
  ∧ Forall (λ n, BattleShipsValidator.validate (single_run n) ten_rows = Ok true)
      [5; 6; 7; 8; 9; 10]%nat.
Proof. split; [reflexivity|]. repeat constructor. Qed.

(** ** Legal boards only (C1) *)

(** C1 fails on the code.  [five_run_fleet] has the required shape, its
    occupied cells form straight runs that touch nowhere, and it passes both
    the contact check and the fleet counter, although one of its runs has five
    cells and none has four: the counter takes the first four cells of the
    run for a ship of four and the fifth for a ship of one. *)
Example five_cell_ship_is_accepted :
  validate_battlefield ten_rows (five_run_fleet, []) =
  (Ok true,
   (five_run_fleet ++
    [ [1; 0; 0; 0; 1; 0; 0; 0; 0; 0];
      [0; 0; 0; 0; 0; 0; 1; 0; 0; 0];
      [1; 0; 0; 0; 0; 0; 0; 0; 0; 0];
      [0; 0; 0; 0; 1; 0; 0; 1; 0; 0];
      [1; 0; 0; 0; 0; 0; 0; 0; 0; 0];
      [0; 0; 0; 1; 0; 1; 0; 1; 0; 0];
      empty_row; empty_row; empty_row; empty_row ],
    [])).
Proof. vm_compute. reflexivity. Qed.

(** ** The fleet counter (C2) *)

(** C2.  On a working copy of the required shape, the code's [validate]
    computes the scan the specification describes: row-major over the board;
    at each occupied cell the first length among 4, 3, 2 that extends below or
    to the right, the trailing cells of every matching extension cleared and
    the tally of that length decremented once, or the tally of 1 when none
    extends; then success exactly when every tally is 0, [ValueError]
    otherwise.  The copy the validator works on is the deep copy made by its
    constructor. *)
Theorem fleet_counter_refines_specification (h : list (list Z)) (b : list nat) :
  shape10 h b →
  BattleShipsQuantityValidator.validate b (h, BattleShipsQuantityValidator.initial_counts)
    = ((if FleetCounter.complete (FleetCounter.scan b (h, FleetCounter.expected)).2
        then Ok true else Raise (ValueError "Ships are incorrect")),
       FleetCounter.scan b (h, FleetCounter.expected))
  ∧ construct_and_validate BattleShipsQuantityValidator b h
    = (let copy := deepcopy_rows ∅ b h in
       let s := FleetCounter.scan copy.1 (copy.2, FleetCounter.expected) in
       ((if FleetCounter.complete s.2
         then Ok true else Raise (ValueError "Ships are incorrect")), s.1)).
Proof.
  intros Hs. split.
  - by rewrite quantity_validate_eq.
  - by rewrite quantity_construct_and_validate.
Qed.

Lemma fleet_counter_refines_specification_witness :
  BattleShipsQuantityValidator.validate ten_rows
      (legal_fleet, BattleShipsQuantityValidator.initial_counts)
    = ((if FleetCounter.complete
             (FleetCounter.scan ten_rows (legal_fleet, FleetCounter.expected)).2
        then Ok true else Raise (ValueError "Ships are incorrect")),
       FleetCounter.scan ten_rows (legal_fleet, FleetCounter.expected))
  ∧ construct_and_validate BattleShipsQuantityValidator ten_rows legal_fleet
    = (let copy := deepcopy_rows ∅ ten_rows legal_fleet in
       let s := FleetCounter.scan copy.1 (copy.2, FleetCounter.expected) in
       ((if FleetCounter.complete s.2
         then Ok true else Raise (ValueError "Ships are incorrect")), s.1)).
Proof.
  apply (fleet_counter_refines_specification legal_fleet ten_rows).
  apply shape10_ten_rows; [reflexivity|]. repeat constructor.
Defined.

(** ** What the scan can touch *)

Section scan_frame.
Context (b : list nat).

Import FleetCounter.

(** A property of stores that assignments to cells of the board preserve is
    preserved by the whole scan: the scan assigns to cells of the board
    only. *)
Lemma scan_preserves (P : list (list Z) → Prop) :
  (∀ h i j, on_board i j = true → P h → P (store_cell h b i j 0)) →
  ∀ s, P s.1 → P (scan b s).1.
Proof.
  intros Hstore.
  assert (∀ a i j ks h,
    Forall (λ k, on_board (offset a i j k).1 (offset a i j k).2 = true) ks → P h →
    P (foldl (λ h' k, store_cell h' b (offset a i j k).1 (offset a i j k).2 0) h ks))
    as Hcells.
  { intros a i j ks h Hks. revert h.
    induction Hks as [|k ks Hk _ IH]; intros h Hh; [done|].
    simpl. apply IH. by apply Hstore. }
  assert (∀ a i j L h h0, extends h0 b a i j L = true → P h → P (clear b a i j L h))
    as Hclear.
  { intros a i j L h h0 He Hh. apply Hcells; [|done].
    apply Forall_forall. intros k Hk%elem_of_range. by eapply extends_on_board. }
  assert (∀ i j L h, P h → P (clear_matched b i j L h)) as Hmatched.
  { intros i j L h Hh. unfold clear_matched.
    destruct (extends h b Vertical i j L) eqn:Ev,
      (extends h b Horizontal i j L) eqn:Eh; eauto. }
  assert (∀ i j s, P s.1 → P (step b i j s).1) as Hstep.
  { intros i j s Hs. unfold step. destruct (occupied s.1 b i j); [|done].
    simpl. by apply Hmatched. }
  assert (∀ i s, P s.1 → P (scan_row b i s).1) as Hrow.
  { intros i s. unfold scan_row. generalize (range 0 10). intros js. revert s.
    induction js as [|j js IH]; intros s Hs; [done|]. simpl. by apply IH, Hstep. }
  intros s. unfold scan. generalize (range 0 10). intros rows. revert s.
  induction rows as [|i rows IH]; intros s Hs; [done|]. simpl. by apply IH, Hrow.
Qed.

(** The scan leaves alone every object below the first row object of the
    board. *)
Lemma scan_frame (n : nat) (s : list (list Z) * gmap Z Z) :
  length b = 10%nat → Forall (λ r, (n ≤ r)%nat) b →
  take n (scan b s).1 = take n s.1.
Proof.
  intros Hlen Hb.
  apply (scan_preserves (λ h, take n h = take n s.1)); [|done].
  intros h i j [Hi Hj]%on_board_spec <-. unfold store_cell.
  apply take_insert_ge. rewrite Forall_lookup in Hb.
  apply (Hb (Z.to_nat i)), list_lookup_lookup_total_lt. lia.
Qed.

Lemma scan_length (s : list (list Z) * gmap Z Z) :
  length (scan b s).1 = length s.1.
Proof.
  apply (scan_preserves (λ h, length h = length s.1)); [|done].
  intros h i j _ <-. apply store_cell_length.
Qed.

End scan_frame.

(** ** Two copies of one board *)

(** The scan of a board depends on the matrix the board denotes and on which
    row positions share an object, not on where the objects are. *)
Section same_cells.
Context (b1 b2 : list nat).
Hypothesis Halias : ∀ i i', 0 ≤ i < 10 → 0 ≤ i' < 10 →
  b1 !!! Z.to_nat i = b1 !!! Z.to_nat i' ↔ b2 !!! Z.to_nat i = b2 !!! Z.to_nat i'.

Import FleetCounter.

Definition same_cells (h1 h2 : list (list Z)) : Prop :=
  shape10 h1 b1 ∧ shape10 h2 b2
  ∧ ∀ i j, 0 ≤ i < 10 → 0 ≤ j < 10 → cell_at h1 b1 i j = cell_at h2 b2 i j.

Lemma same_cells_status (h1 h2 : list (list Z)) (i j : Z) :
  same_cells h1 h2 → status h1 b1 i j = status h2 b2 i j.
Proof.
  intros (_ & _ & Hc). unfold status. destruct (on_board i j) eqn:E; [|done].
  apply on_board_spec in E as [Hi Hj]. by apply Hc.
Qed.

Lemma same_cells_store (h1 h2 : list (list Z)) (i j v : Z) :
  on_board i j = true → same_cells h1 h2 →
  same_cells (store_cell h1 b1 i j v) (store_cell h2 b2 i j v).
Proof.
  intros [Hi Hj]%on_board_spec (Hs1 & Hs2 & Hc).
  split_and!; [by apply store_cell_shape|by apply store_cell_shape|].
  intros i' j' Hi' Hj'. rewrite !cell_at_store_cell by done.
  rewrite Hc by done. specialize (Halias i' i Hi' Hi).
  destruct (decide (b1 !!! Z.to_nat i' = b1 !!! Z.to_nat i ∧ j' = j)) as [[H1 H1']|H1],
    (decide (b2 !!! Z.to_nat i' = b2 !!! Z.to_nat i ∧ j' = j)) as [[H2 H3]|H2];
    try done.
  - exfalso. apply H2. split; [by apply Halias|done].
  - exfalso. apply H1. split; [by apply Halias|done].
Qed.

Lemma same_cells_extends (h1 h2 : list (list Z)) (a : axis) (i j L : Z) :
  same_cells h1 h2 → extends h1 b1 a i j L = extends h2 b2 a i j L.
Proof.
  intros Hsame. unfold extends. apply forallb_agree. intros k _.
  unfold occupied. by rewrite (same_cells_status h1 h2).
Qed.

Lemma same_cells_clear (h1 h2 h0 : list (list Z)) (a : axis) (i j L : Z) :
  extends h0 b1 a i j L = true → same_cells h1 h2 →
  same_cells (clear b1 a i j L h1) (clear b2 a i j L h2).
Proof.
  intros He. unfold clear.
  assert (Forall (λ k, on_board (offset a i j k).1 (offset a i j k).2 = true)
            (range 1 L)) as Hks.
  { apply Forall_forall. intros k Hk%elem_of_range. by eapply extends_on_board. }
  revert h1 h2. induction Hks as [|k ks Hk _ IH]; intros h1 h2 Hsame; [done|].
  simpl. by apply IH, same_cells_store.
Qed.

Lemma same_cells_clear_matched (h1 h2 : list (list Z)) (i j L : Z) :
  same_cells h1 h2 →
  same_cells (clear_matched b1 i j L h1) (clear_matched b2 i j L h2).
Proof.
  intros Hsame. unfold clear_matched.
  rewrite <- !(same_cells_extends h1 h2) by done.
  destruct (extends h1 b1 Vertical i j L) eqn:Ev,
    (extends h1 b1 Horizontal i j L) eqn:Eh; eauto using same_cells_clear.
Qed.

Lemma same_cells_ship_length (h1 h2 : list (list Z)) (i j : Z) :
  same_cells h1 h2 → ship_length h1 b1 i j = ship_length h2 b2 i j.
Proof.
  intros Hsame. unfold ship_length, matches.
  by rewrite !(same_cells_extends h1 h2).
Qed.

(** Two scan states: boards with the same cells, and the same tally. *)
Definition same_state (s1 s2 : list (list Z) * gmap Z Z) : Prop :=
  same_cells s1.1 s2.1 ∧ s1.2 = s2.2.

Lemma same_state_step (i j : Z) (s1 s2 : list (list Z) * gmap Z Z) :
  same_state s1 s2 → same_state (step b1 i j s1) (step b2 i j s2).
Proof.
  intros [Hsame Hd]. unfold step, occupied.
  rewrite <- (same_cells_status s1.1 s2.1) by done.
  destruct (truthy (status s1.1 b1 i j)); [|done].
  rewrite <- (same_cells_ship_length s1.1 s2.1) by done.
  split; simpl.
  - by apply same_cells_clear_matched.
  - by rewrite Hd.
Qed.

Lemma same_state_foldl {A} (f1 f2 : list (list Z) * gmap Z Z → A → list (list Z) * gmap Z Z)
    (xs : list A) :
  (∀ x s1 s2, same_state s1 s2 → same_state (f1 s1 x) (f2 s2 x)) →
  ∀ s1 s2, same_state s1 s2 → same_state (foldl f1 s1 xs) (foldl f2 s2 xs).
Proof.
  intros Hf. induction xs as [|x xs IH]; intros s1 s2 Hs; [done|].
  simpl. by apply IH, Hf.
Qed.

Lemma same_state_scan (s1 s2 : list (list Z) * gmap Z Z) :
  same_state s1 s2 → same_state (scan b1 s1) (scan b2 s2).
Proof.
  apply same_state_foldl. intros i. apply same_state_foldl.
  intros j. apply same_state_step.
Qed.

End same_cells.

(** ** The result as a function of the matrix *)

Lemma cell_at_contents_eq (h h' : list (list Z)) (b b' : list nat) (i j : Z) :
  shape10 h b → contents h' b' = contents h b → 0 ≤ i < 10 → 0 ≤ j < 10 →
  cell_at h' b' i j = cell_at h b i j.
Proof.
  intros Hs Hc Hi Hj.
  pose proof (cell_at_contents h b i j Hs Hi Hj) as H1.
  pose proof (cell_at_contents h' b' i j (shape10_contents _ _ _ _ Hc Hs) Hi Hj) as H2.
  rewrite Hc in H2. congruence.
Qed.

Lemma status_contents_eq (h h' : list (list Z)) (b b' : list nat) (i j : Z) :
  shape10 h b → contents h' b' = contents h b →
  status h' b' i j = status h b i j.
Proof.
  intros Hs Hc. unfold status. destruct (on_board i j) eqn:E; [|done].
  apply on_board_spec in E as [Hi Hj]. by apply cell_at_contents_eq.
Qed.

Lemma cell_ok_contents_eq (h h' : list (list Z)) (b b' : list nat) (i j : Z) :
  shape10 h b → contents h' b' = contents h b →
  cell_ok h' b' i j = cell_ok h b i j.
Proof.
  intros Hs Hc. unfold cell_ok, neighbors_ok, cross_ok, occupied.
  by rewrite !(status_contents_eq h h' b b').
Qed.

Lemma contact_validate_contents_eq (h h' : list (list Z)) (b b' : list nat) :
  shape10 h b → contents h' b' = contents h b →
  BattleShipsValidator.validate h b = Ok true →
  BattleShipsValidator.validate h' b' = Ok true.
Proof.
  intros Hs Hc Hv.
  apply contact_validate_ok; [by eapply shape10_contents|].
  intros i j Hi Hj. rewrite (cell_ok_contents_eq h h' b b') by done.
  by apply (contact_validate_ok h b Hs).
Qed.

Lemma contents_app (h ext : list (list Z)) (b : list nat) :
  wf_board h b → contents (h ++ ext) b = contents h b.
Proof.
  intros Hwf. unfold contents. apply list_fmap_ext. intros i r Hr.
  apply lookup_total_app_l. unfold wf_board in Hwf. rewrite Forall_lookup in Hwf.
  by apply (Hwf i).
Qed.

Lemma copy_alias_total (h0 h' : list (list Z)) (b b' : list nat) (i i' : Z) :
  copy_of h0 b h' b' → length b = 10%nat → 0 ≤ i < 10 → 0 ≤ i' < 10 →
  b' !!! Z.to_nat i = b' !!! Z.to_nat i' ↔ b !!! Z.to_nat i = b !!! Z.to_nat i'.
Proof.
  intros Hcopy Hlen Hi Hi'.
  apply (copy_alias _ _ _ _ Hcopy (Z.to_nat i) (Z.to_nat i'));
    apply list_lookup_lookup_total_lt; rewrite ?(copy_length _ _ _ _ Hcopy); lia.
Qed.

(** The outcome of the fleet counter is the same on any two stores in which
    the board denotes the same matrix. *)
Lemma fleet_result_contents_eq (h h' : list (list Z)) (field : list nat) :
  shape10 h field → contents h' field = contents h field →
  FleetCounter.complete
    (FleetCounter.scan (deepcopy_rows ∅ field h').1
       ((deepcopy_rows ∅ field h').2, FleetCounter.expected)).2
  = FleetCounter.complete
      (FleetCounter.scan (deepcopy_rows ∅ field h).1
         ((deepcopy_rows ∅ field h).2, FleetCounter.expected)).2.
Proof.
  intros Hs Hc.
  pose proof (shape10_contents _ _ _ _ Hc Hs) as Hs'.
  pose proof (deepcopy_rows_copy_of h field (shape10_wf _ _ Hs)) as Hcopy.
  pose proof (deepcopy_rows_copy_of h' field (shape10_wf _ _ Hs')) as Hcopy'.
  destruct (deepcopy_rows ∅ field h) as [b1 h1].
  destruct (deepcopy_rows ∅ field h') as [b2 h2]. cbn [fst snd] in *.
  assert (length field = 10%nat) as Hlen by apply Hs.
  destruct (same_state_scan b2 b1) with (s1 := (h2, FleetCounter.expected))
    (s2 := (h1, FleetCounter.expected)) as [_ ->]; [| |done].
  - intros i i' Hi Hi'.
    rewrite (copy_alias_total _ _ _ _ i i' Hcopy Hlen Hi Hi').
    by rewrite (copy_alias_total _ _ _ _ i i' Hcopy' Hlen Hi Hi').
  - split; [|done]. cbn [fst].
    split_and!; [by eapply copy_of_shape|by eapply copy_of_shape|].
    intros i j Hi Hj. apply cell_at_contents_eq; [by eapply copy_of_shape| |done|done].
    rewrite (copy_contents _ _ _ _ Hcopy'), (copy_contents _ _ _ _ Hcopy). done.
Qed.

(** The boolean that [validate_battlefield] returns is determined by the
    matrix the board denotes (and by which rows of the board are one
    object). *)
Lemma validate_battlefield_contents_eq (h h' : list (list Z)) (field : list nat)
    (log log' : list string) :
  contents h' field = contents h field →
  (validate_battlefield field (h', log')).1 = (validate_battlefield field (h, log)).1.
Proof.
  intros Hc. destruct (shape10_dec h field) as [Hs|Hn].
  - pose proof (shape10_contents _ _ _ _ Hc Hs) as Hs'.
    destruct (contact_validate_cases h field Hs) as [Hv|[msg Hv]].
    + pose proof (contact_validate_contents_eq _ _ _ _ Hs Hc Hv) as Hv'.
      rewrite !validate_battlefield_fleet by done. cbv zeta.
      rewrite (fleet_result_contents_eq h h' field Hs Hc).
      by destruct (FleetCounter.complete _).
    + rewrite (validate_battlefield_contact_fails _ _ _ _ Hs Hv).
      destruct (contact_validate_cases h' field Hs') as [Hv'|[msg' Hv']].
      * symmetry in Hc.
        pose proof (contact_validate_contents_eq _ _ _ _ Hs' Hc Hv'). congruence.
      * by rewrite (validate_battlefield_contact_fails _ _ _ _ Hs' Hv').
  - assert (¬ shape10 h' field) as Hn'.
    { intros Hs'. apply Hn. symmetry in Hc. by eapply shape10_contents. }
    destruct (validate_battlefield_not_shape field h log Hn) as (msg & _ & ->).
    by destruct (validate_battlefield_not_shape field h' log' Hn') as (msg' & _ & ->).
Qed.

(** [validate_battlefield] only adds objects to the store: the objects that
    were there are as they were. *)
Lemma validate_battlefield_frame (h : list (list Z)) (field : list nat)
    (log : list string) :
  ∃ ext, (validate_battlefield field (h, log)).2.1 = h ++ ext
       ∧ contents (h ++ ext) field = contents h field.
Proof.
  destruct (shape10_dec h field) as [Hs|Hn].
  - destruct (contact_validate_cases h field Hs) as [Hv|[msg Hv]].
    + rewrite validate_battlefield_fleet by done. cbv zeta.
      pose proof (deepcopy_rows_copy_of h field (shape10_wf _ _ Hs)) as Hcopy.
      destruct (deepcopy_rows ∅ field h) as [b1 h1]. cbn [fst snd] in *.
      destruct (copy_heap _ _ _ _ Hcopy) as [ext0 ->].
      assert (take (length h) (FleetCounter.scan b1 (h ++ ext0, FleetCounter.expected)).1
              = h) as Htake.
      { rewrite scan_frame.
        - apply take_app_length.
        - rewrite (copy_length _ _ _ _ Hcopy). apply Hs.
        - eapply Forall_impl; [exact (copy_fresh _ _ _ _ Hcopy)|].
          intros r Hr. simpl in Hr. lia. }
      exists (drop (length h)
                (FleetCounter.scan b1 (h ++ ext0, FleetCounter.expected)).1).
      split.
      * set (s := FleetCounter.scan b1 (h ++ ext0, FleetCounter.expected)) in *.
        destruct (FleetCounter.complete s.2); cbn [fst snd];
          rewrite <- (take_drop (length h) s.1) at 1; by rewrite Htake.
      * apply contents_app. by apply shape10_wf.
    + rewrite (validate_battlefield_contact_fails _ _ _ _ Hs Hv).
      exists []. by rewrite app_nil_r.
  - destruct (validate_battlefield_not_shape field h log Hn) as (msg & _ & ->).
    exists []. by rewrite app_nil_r.
Qed.

(** ** No mutation of the caller's board *)

(** X1.  Calling [validate_battlefield] twice on the same board object, the
    second call in the store the first call left, gives the same boolean both
    times; after either call the board denotes the matrix it denoted before
    the first, and every object that existed before the first call is
    unchanged (the store only grows: the counter's assignments fall on the
    new objects of its deep copy). *)
Theorem validate_battlefield_twice (field : list nat) (h : list (list Z))
    (log : list string) :
  let first := validate_battlefield field (h, log) in
  let second := validate_battlefield field first.2 in
  (∃ r, first.1 = Ok r ∧ second.1 = Ok r)
  ∧ contents first.2.1 field = contents h field
  ∧ contents second.2.1 field = contents h field
  ∧ (∃ ext, first.2.1 = h ++ ext)
  ∧ (∃ ext, second.2.1 = h ++ ext).
Proof.
  intros first second. subst second first.
  destruct (validate_battlefield_returns field h log) as (r & h1 & log1 & E1).
  destruct (validate_battlefield_frame h field log) as (ext1 & Hh1 & Hc1).
  rewrite E1 in Hh1 |- *. cbn [fst snd] in Hh1 |- *. subst h1.
  destruct (validate_battlefield_frame (h ++ ext1) field log1) as (ext2 & Hh2 & Hc2).
  pose proof (validate_battlefield_contents_eq h (h ++ ext1) field log log1 Hc1) as Hr.
  rewrite E1 in Hr. cbn [fst] in Hr.
  split_and!.
  - eauto.
  - done.
  - rewrite Hh2, Hc2. done.
  - eauto.
  - exists (ext1 ++ ext2). by rewrite Hh2, app_assoc.
Qed.

(** ** Fleets *)

(** A ship: the cell it starts at (its topmost, or leftmost, cell), its
    length, and whether it runs down a column or along a row. *)
Record ship := Ship {
  ship_row : Z;
  ship_col : Z;
  ship_len : Z;
  ship_vertical : bool;
}.

Definition covers (s : ship) (i j : Z) : bool :=
  if ship_vertical s
  then (j =? ship_col s) && (ship_row s <=? i) && (i <? ship_row s + ship_len s)
  else (i =? ship_row s) && (ship_col s <=? j) && (j <? ship_col s + ship_len s).

(** A ship of 1 to 4 cells, all on the board. *)
Definition ship_fits (s : ship) : Prop :=
  1 ≤ ship_len s ≤ 4 ∧ 0 ≤ ship_row s ∧ 0 ≤ ship_col s
  ∧ (if ship_vertical s
     then ship_row s + ship_len s ≤ 10 ∧ ship_col s < 10
     else ship_col s + ship_len s ≤ 10 ∧ ship_row s < 10).

(** At least one empty cell between the two ships in every direction: no
    cell of one is a cell of the other or next to one, by a side or by a
    corner. *)
Definition apart (s t : ship) : Prop :=
  ∀ i j i' j', covers s i j = true → covers t i' j' = true →
    2 ≤ Z.abs (i - i') ∨ 2 ≤ Z.abs (j - j').

(** How many ships of a list satisfy [f]. *)
Fixpoint count_ships (f : ship → bool) (F : list ship) : Z :=
  match F with
  | [] => 0
  | s :: F' => (if f s then 1 else 0) + count_ships f F'
  end.

Definition count_len (L : Z) (F : list ship) : Z :=
  count_ships (λ s, ship_len s =? L) F.

(** The fleet of the game: one ship of 4, two of 3, three of 2, four of 1,
    on the board and pairwise apart. *)
Record legal (F : list ship) : Prop := {
  legal_fits : Forall ship_fits F;
  legal_apart : ∀ a b s t, F !! a = Some s → F !! b = Some t → a ≠ b → apart s t;
  legal_counts :
    count_len 4 F = 1 ∧ count_len 3 F = 2 ∧ count_len 2 F = 3 ∧ count_len 1 F = 4;
}.

Definition covered (F : list ship) (i j : Z) : bool :=
  existsb (λ s, covers s i j) F.

(** The board populated with the ships of [F]: 1 on their cells, 0
    elsewhere. *)
Definition render (F : list ship) : list (list Z) :=
  (λ i, (λ j, Z.b2z (covered F i j)) <$> range 0 10) <$> range 0 10.

(** A decision procedure for [legal], by the bounding boxes of the ships. *)
Definition ship_fitsb (s : ship) : bool :=
  (1 <=? ship_len s) && (ship_len s <=? 4) && (0 <=? ship_row s) && (0 <=? ship_col s)
  && (if ship_vertical s
      then (ship_row s + ship_len s <=? 10) && (ship_col s <? 10)
      else (ship_col s + ship_len s <=? 10) && (ship_row s <? 10)).

Definition row_end (s : ship) : Z :=
  if ship_vertical s then ship_row s + ship_len s - 1 else ship_row s.

Definition col_end (s : ship) : Z :=
  if ship_vertical s then ship_col s else ship_col s + ship_len s - 1.

Definition apartb (s t : ship) : bool :=
  (row_end s + 1 <? ship_row t) || (row_end t + 1 <? ship_row s)
  || (col_end s + 1 <? ship_col t) || (col_end t + 1 <? ship_col s).

Fixpoint pairwise_apartb (F : list ship) : bool :=
  match F with
  | [] => true
  | s :: F' => forallb (apartb s) F' && pairwise_apartb F'
  end.

Definition legalb (F : list ship) : bool :=
  forallb ship_fitsb F && pairwise_apartb F
  && (count_len 4 F =? 1) && (count_len 3 F =? 2)
  && (count_len 2 F =? 3) && (count_len 1 F =? 4).

Lemma covers_spec (s : ship) (i j : Z) :
  covers s i j = true ↔
  (ship_vertical s = true ∧ j = ship_col s ∧ ship_row s ≤ i < ship_row s + ship_len s)
  ∨ (ship_vertical s = false ∧ i = ship_row s ∧ ship_col s ≤ j < ship_col s + ship_len s).
Proof.
  unfold covers. destruct (ship_vertical s);
    rewrite !andb_true_iff, Z.eqb_eq, Z.leb_le, Z.ltb_lt; intuition (try lia; try done).
Qed.

Lemma covers_false_spec (s : ship) (i j : Z) :
  covers s i j = false ↔ ¬ covers s i j = true.
Proof. destruct (covers s i j); split; congruence. Qed.

Lemma ship_fitsb_sound (s : ship) : ship_fitsb s = true → ship_fits s.
Proof.
  unfold ship_fitsb, ship_fits.
  rewrite !andb_true_iff, !Z.leb_le. intros ((((? & ?) & ?) & ?) & Hv).
  split_and!; try done.
  destruct (ship_vertical s); apply andb_true_iff in Hv as [?%Z.leb_le ?%Z.ltb_lt]; lia.
Qed.

Lemma apartb_sound (s t : ship) : apartb s t = true → apart s t.
Proof.
  unfold apartb, apart, row_end, col_end.
  rewrite !orb_true_iff, !Z.ltb_lt. intros Hb i j i' j' Hs Ht.
  apply covers_spec in Hs. apply covers_spec in Ht.
  destruct (ship_vertical s), (ship_vertical t); lia.
Qed.

Lemma apart_sym (s t : ship) : apart s t → apart t s.
Proof.
  intros H i j i' j' Ht Hs. specialize (H i' j' i j Hs Ht). lia.
Qed.

Lemma pairwise_apartb_sound (F : list ship) :
  pairwise_apartb F = true →
  ∀ a b s t, F !! a = Some s → F !! b = Some t → a ≠ b → apart s t.
Proof.
  induction F as [|x F IH]; simpl; [by intros _ a b s t ?|].
  intros [Hx HF]%andb_true_iff a b s t Ha Hb Hne.
  rewrite forallb_forall in Hx.
  destruct a as [|a], b as [|b]; simpl in *; try done.
  - injection Ha as <-. apply apartb_sound, Hx, list_elem_of_In.
    by eapply list_elem_of_lookup_2.
  - injection Hb as <-. apply apart_sym, apartb_sound, Hx, list_elem_of_In.
    by eapply list_elem_of_lookup_2.
  - apply (IH HF a b); [done|done|lia].
Qed.

Lemma legalb_sound (F : list ship) : legalb F = true → legal F.
Proof.
  unfold legalb. rewrite !andb_true_iff, !Z.eqb_eq.
  intros (((((Hfit & Hap) & H4) & H3) & H2) & H1). split.
  - apply Forall_forall. intros s Hs. apply ship_fitsb_sound.
    rewrite forallb_forall in Hfit. by apply Hfit, list_elem_of_In.
  - by apply pairwise_apartb_sound.
  - done.
Qed.

(** ** A legal fleet on the board *)

Lemma covers_origin (s : ship) :
  1 ≤ ship_len s → covers s (ship_row s) (ship_col s) = true.
Proof. intros Hn. apply covers_spec. destruct (ship_vertical s); [left|right]; lia. Qed.

Lemma covers_on_board (s : ship) (i j : Z) :
  ship_fits s → covers s i j = true → 0 ≤ i < 10 ∧ 0 ≤ j < 10.
Proof.
  intros (Hn & Hr & Hc & Hv) [(Ev & -> & Hi)|(Ev & -> & Hj)]%covers_spec;
    rewrite Ev in Hv; lia.
Qed.

Lemma covered_spec (F : list ship) (i j : Z) :
  covered F i j = true ↔ ∃ s, s ∈ F ∧ covers s i j = true.
Proof.
  unfold covered. rewrite existsb_exists.
  split; intros (s & Hs & Hc); exists s; split; try done; by apply list_elem_of_In.
Qed.

Lemma covered_false_spec (F : list ship) (i j : Z) :
  covered F i j = false ↔ ∀ s, s ∈ F → covers s i j = false.
Proof.
  split.
  - intros Hc s Hs. destruct (covers s i j) eqn:E; [|done].
    assert (covered F i j = true) by (apply covered_spec; eauto). congruence.
  - intros H. destruct (covered F i j) eqn:E; [|done].
    apply covered_spec in E as (s & Hs & Hc). rewrite H in Hc; done.
Qed.

Lemma range_lookup (n i : Z) : 0 ≤ i < n → range 0 n !! Z.to_nat i = Some i.
Proof.
  intros Hi. unfold range. rewrite lookup_seqZ_lt by lia. f_equal. lia.
Qed.

Section legal_fleet.
Context (F : list ship).
Hypothesis Hlegal : legal F.

Lemma legal_ship_fits (s : ship) : s ∈ F → ship_fits s.
Proof.
  intros Hs. pose proof (legal_fits F Hlegal) as Hf.
  rewrite Forall_forall in Hf. by apply Hf.
Qed.

(** Two cells that touch, by a side or by a corner, or are the same cell,
    belong to the same ship. *)
Lemma legal_same_ship (s t : ship) (i j i' j' : Z) :
  s ∈ F → t ∈ F → covers s i j = true → covers t i' j' = true →
  Z.abs (i - i') ≤ 1 → Z.abs (j - j') ≤ 1 → s = t.
Proof.
  intros [a Ha]%list_elem_of_lookup [b Hb]%list_elem_of_lookup Hs Ht Hi Hj.
  destruct (decide (a = b)) as [->|Hne]; [congruence|].
  pose proof (legal_apart F Hlegal a b s t Ha Hb Hne i j i' j' Hs Ht). lia.
Qed.

Lemma legal_NoDup : NoDup F.
Proof.
  apply NoDup_alt. intros a b s Ha Hb.
  destruct (decide (a = b)) as [|Hne]; [done|].
  assert (ship_fits s) as (Hn & _).
  { apply legal_ship_fits. by eapply list_elem_of_lookup_2. }
  pose proof (covers_origin s ltac:(lia)) as Ho.
  pose proof (legal_apart F Hlegal a b s s Ha Hb Hne _ _ _ _ Ho Ho). lia.
Qed.

(** A cell next to a ship and not of that ship is empty. *)
Lemma covered_near (s : ship) (i j i' j' : Z) :
  s ∈ F → covers s i j = true →
  Z.abs (i - i') ≤ 1 → Z.abs (j - j') ≤ 1 →
  covers s i' j' = false → covered F i' j' = false.
Proof.
  intros Hs Hc Hi Hj Hn. apply covered_false_spec. intros t Ht.
  destruct (covers t i' j') eqn:E; [|done].
  assert (s = t) as <- by by eapply legal_same_ship. congruence.
Qed.

Lemma covered_on_board (i j : Z) : covered F i j = true → 0 ≤ i < 10 ∧ 0 ≤ j < 10.
Proof.
  intros (s & Hs & Hc)%covered_spec.
  eapply covers_on_board; [by apply legal_ship_fits|done].
Qed.

Section rendered.
Context (h : list (list Z)) (b : list nat).
Hypothesis Hrender : contents h b = render F.

Lemma render_lookup (i : Z) :
  0 ≤ i < 10 →
  render F !! Z.to_nat i = Some ((λ j, Z.b2z (covered F i j)) <$> range 0 10).
Proof.
  intros Hi. unfold render. by rewrite list_lookup_fmap, range_lookup.
Qed.

Lemma rendered_shape : shape10 h b.
Proof using Hrender.
  assert (length b = 10%nat) as Hlen.
  { rewrite <- (length_fmap (λ r, h !!! r) b). fold (contents h b).
    rewrite Hrender. unfold render. by rewrite length_fmap. }
  split; [done|].
  apply Forall_lookup. intros k r Hr.
  pose proof (lookup_lt_Some _ _ _ Hr) as Hk.
  assert (contents h b !! k = Some (h !!! r)) as Hc.
  { unfold contents. by rewrite list_lookup_fmap, Hr. }
  rewrite Hrender in Hc.
  rewrite <- (Nat2Z.id k), render_lookup in Hc by lia.
  apply (inj Some) in Hc. by rewrite <- Hc, length_fmap.
Qed.

Lemma rendered_cell (i j : Z) :
  0 ≤ i < 10 → 0 ≤ j < 10 → cell_at h b i j = Z.b2z (covered F i j).
Proof using Hrender.
  intros Hi Hj.
  pose proof (cell_at_contents h b i j rendered_shape Hi Hj) as Hc.
  rewrite Hrender, render_lookup in Hc by done. cbn [mbind option_bind] in Hc.
  rewrite list_lookup_fmap, range_lookup in Hc by done. by apply (inj Some) in Hc.
Qed.

Lemma rendered_status (i j : Z) : status h b i j = Z.b2z (covered F i j).
Proof using Hrender Hlegal.
  unfold status. destruct (on_board i j) eqn:E.
  - apply on_board_spec in E as [Hi Hj]. by apply rendered_cell.
  - destruct (covered F i j) eqn:Hc; [|done].
    apply covered_on_board, on_board_spec in Hc. congruence.
Qed.

(** The contact checker accepts every cell. *)
Lemma rendered_cell_ok (i j : Z) : cell_ok h b i j = true.
Proof using Hrender Hlegal.
  unfold cell_ok, occupied, neighbors_ok, cross_ok. rewrite !rendered_status.
  destruct (covered F i j) eqn:E; [|done].
  apply covered_spec in E as (s & Hs & Hc).
  assert (∀ i' j', Z.abs (i - i') ≤ 1 → Z.abs (j - j') ≤ 1 →
                   covers s i' j' = false → covered F i' j' = false) as Hnear.
  { intros i' j'. by apply covered_near. }
  rewrite (Hnear (i - 1) (j + 1)), (Hnear (i - 1) (j - 1)),
    (Hnear (i + 1) (j + 1)), (Hnear (i + 1) (j - 1));
    try lia;
    try (apply covers_false_spec; intros Hc'; apply covers_spec in Hc, Hc';
         destruct (ship_vertical s); intuition (try discriminate; lia)).
  apply covers_spec in Hc as [(Ev & Hj & Hi)|(Ev & Hi & Hj)].
  - rewrite (Hnear i (j - 1)), (Hnear i (j + 1)); try lia;
      try (apply covers_false_spec; intros Hc'; apply covers_spec in Hc';
           rewrite Ev in Hc'; intuition (try discriminate; lia)).
    by destruct (covered F (i - 1) j), (covered F (i + 1) j).
  - rewrite (Hnear (i - 1) j), (Hnear (i + 1) j); try lia;
      try (apply covers_false_spec; intros Hc'; apply covers_spec in Hc';
           rewrite Ev in Hc'; intuition (try discriminate; lia)).
    by destruct (covered F i (j - 1)), (covered F i (j + 1)).
Qed.

Lemma rendered_contact_ok : BattleShipsValidator.validate h b = Ok true.
Proof using Hrender Hlegal.
  apply contact_validate_ok; [exact rendered_shape|].
  intros i j _ _. apply rendered_cell_ok.
Qed.

End rendered.
End legal_fleet.

(** ** The scan of a legal fleet *)

#[global] Instance ship_eq_dec : EqDecision ship.
Proof. solve_decision. Defined.

(** The ship starts before the cell [(i, j)], in row-major order. *)
Definition before (t : ship) (i j : Z) : bool :=
  (ship_row t <? i) || ((ship_row t =? i) && (ship_col t <? j)).

Definition is_origin (t : ship) (i j : Z) : bool :=
  (ship_row t =? i) && (ship_col t =? j).

(** The cells still occupied when the scan reaches [(i, j)]: the cells of the
    ships it has not reached, and the first cell of each ship it has. *)
Definition live (F : list ship) (i j i' j' : Z) : bool :=
  existsb (λ t, covers t i' j' && (negb (before t i j) || is_origin t i' j')) F.

(** The ships of length [L] that the scan has not reached. *)
Definition pending (i j L : Z) (t : ship) : bool :=
  (ship_len t =? L) && negb (before t i j).

(** The state of the scan of a board that depicts the fleet [F], on reaching
    the cell [(i, j)]. *)
Record fleet_inv (F : list ship) (b : list nat) (i j : Z)
    (st : list (list Z) * gmap Z Z) : Prop := {
  inv_shape : shape10 st.1 b;
  inv_cells : ∀ i' j', 0 ≤ i' < 10 → 0 ≤ j' < 10 →
    cell_at st.1 b i' j' = Z.b2z (live F i j i' j');
  inv_tally : ∀ L, 1 ≤ L ≤ 4 → st.2 !! L = Some (count_ships (pending i j L) F);
}.

(** The cells that clearing a ship of length [L] at [(i, j)] sets to 0. *)
Definition trailing (a : FleetCounter.axis) (i j L i' j' : Z) : bool :=
  match a with
  | FleetCounter.Vertical => (j' =? j) && (i <? i') && (i' <? i + L)
  | FleetCounter.Horizontal => (i' =? i) && (j <? j') && (j' <? j + L)
  end.

Definition axis_of (s : ship) : FleetCounter.axis :=
  if ship_vertical s then FleetCounter.Vertical else FleetCounter.Horizontal.

Lemma before_spec (t : ship) (i j : Z) :
  before t i j = true ↔ ship_row t < i ∨ (ship_row t = i ∧ ship_col t < j).
Proof.
  unfold before. by rewrite orb_true_iff, andb_true_iff, !Z.ltb_lt, Z.eqb_eq.
Qed.

Lemma before_false_spec (t : ship) (i j : Z) :
  before t i j = false ↔ ¬ (ship_row t < i ∨ (ship_row t = i ∧ ship_col t < j)).
Proof. rewrite <- before_spec. destruct (before t i j); split; congruence. Qed.

Lemma is_origin_spec (t : ship) (i j : Z) :
  is_origin t i j = true ↔ ship_row t = i ∧ ship_col t = j.
Proof. unfold is_origin. by rewrite andb_true_iff, !Z.eqb_eq. Qed.

Lemma live_spec (F : list ship) (i j i' j' : Z) :
  live F i j i' j' = true ↔
  ∃ t, t ∈ F ∧ covers t i' j' = true
       ∧ (before t i j = false ∨ is_origin t i' j' = true).
Proof.
  unfold live. rewrite existsb_exists. split.
  - intros (t & Ht & [Hc Hb]%andb_true_iff). exists t.
    split_and!; [by apply list_elem_of_In|done|].
    apply orb_true_iff in Hb as [Hb%negb_true_iff|Hb]; auto.
  - intros (t & Ht & Hc & Hb). exists t. split; [by apply list_elem_of_In|].
    rewrite Hc. simpl. destruct Hb as [->| ->]; [done|]. apply orb_true_r.
Qed.

Lemma live_covered (F : list ship) (i j i' j' : Z) :
  live F i j i' j' = true → covered F i' j' = true.
Proof.
  intros (t & Ht & Hc & _)%live_spec. apply covered_spec. eauto.
Qed.

(** A cell of a ship that the scan has not passed is the ship's first cell
    only if the scan is at that cell. *)
Lemma covers_not_before (t : ship) (i j : Z) :
  covers t i j = true → before t i j = false → is_origin t i j = true.
Proof.
  intros Hc%covers_spec Hb%before_false_spec. apply is_origin_spec.
  destruct Hc as [(_ & ? & ?)|(_ & ? & ?)]; lia.
Qed.

Lemma before_next (t : ship) (i j : Z) :
  before t i (j + 1) = before t i j || is_origin t i j.
Proof.
  apply eq_true_iff_eq.
  rewrite orb_true_iff, !before_spec, is_origin_spec. lia.
Qed.

Lemma origin_not_before (t : ship) (i j : Z) :
  is_origin t i j = true → before t i j = false.
Proof. intros [? ?]%is_origin_spec. apply before_false_spec. lia. Qed.

Lemma count_ships_ext (f g : ship → bool) (F : list ship) :
  (∀ t, t ∈ F → f t = g t) → count_ships f F = count_ships g F.
Proof.
  induction F as [|t F IH]; intros H; simpl; [done|].
  rewrite (H t) by left. rewrite IH; [done|]. intros t' Ht'. apply H. by right.
Qed.

Lemma count_ships_none (f : ship → bool) (F : list ship) :
  (∀ t, t ∈ F → f t = false) → count_ships f F = 0.
Proof.
  induction F as [|t F IH]; intros H; simpl; [done|].
  rewrite (H t) by left. rewrite IH; [done|]. intros t' Ht'. apply H. by right.
Qed.

(** Taking one ship out of what is counted. *)
Lemma count_ships_remove (f g : ship → bool) (F : list ship) (s : ship) :
  NoDup F → s ∈ F → f s = true →
  (∀ t, t ∈ F → g t = if decide (t = s) then false else f t) →
  count_ships g F = count_ships f F - 1.
Proof.
  induction F as [|t F IH]; intros Hnd Hs Hf Hg; [by apply elem_of_nil in Hs|].
  apply NoDup_cons in Hnd as [Hnot Hnd]. simpl.
  rewrite (Hg t) by left.
  destruct (decide (t = s)) as [->|Hne].
  - rewrite Hf. rewrite (count_ships_ext g f F); [lia|].
    intros t' Ht'. rewrite Hg by by right.
    rewrite decide_False; [done|]. by intros ->.
  - apply elem_of_cons in Hs as [->|Hs]; [done|].
    rewrite IH; [lia|done|done|done|]. intros t' Ht'. apply Hg. by right.
Qed.

(** On a board whose ten rows are ten objects, an assignment changes one
    cell. *)
Lemma cell_at_store_cell_NoDup (h : list (list Z)) (b : list nat) (i j v i' j' : Z) :
  NoDup b → shape10 h b → 0 ≤ i < 10 → 0 ≤ j < 10 → 0 ≤ i' < 10 → 0 ≤ j' < 10 →
  cell_at (store_cell h b i j v) b i' j' =
  if decide (i' = i ∧ j' = j) then v else cell_at h b i' j'.
Proof.
  intros Hnd Hs Hi Hj Hi' Hj'. rewrite cell_at_store_cell by done.
  destruct (decide (i' = i ∧ j' = j)) as [[-> ->]|Hne].
  - by rewrite decide_True.
  - rewrite decide_False; [done|]. intros [Hr ->]. apply Hne. split; [|done].
    assert (Z.to_nat i' = Z.to_nat i) as Heq; [|lia].
    assert (length b = 10%nat) as Hlen by apply Hs.
    apply (NoDup_lookup b _ _ (b !!! Z.to_nat i) Hnd).
    + rewrite <- Hr. apply list_lookup_lookup_total_lt. lia.
    + apply list_lookup_lookup_total_lt. lia.
Qed.

Section clear_cells.
Context (b : list nat).
Hypothesis Hnd : NoDup b.

Import FleetCounter.

Lemma cell_at_clear_list (a : axis) (i j : Z) (ks : list Z) (h : list (list Z))
    (i' j' : Z) :
  shape10 h b → 0 ≤ i' < 10 → 0 ≤ j' < 10 →
  Forall (λ k, on_board (offset a i j k).1 (offset a i j k).2 = true) ks →
  cell_at (foldl (λ h' k, store_cell h' b (offset a i j k).1 (offset a i j k).2 0) h ks)
    b i' j'
  = if existsb (λ k, ((offset a i j k).1 =? i') && ((offset a i j k).2 =? j')) ks
    then 0 else cell_at h b i' j'.
Proof using Hnd.
  intros Hs Hi' Hj' Hks. revert h Hs.
  induction Hks as [|k ks Hk _ IH]; intros h Hs; [done|].
  apply on_board_spec in Hk as [Hi Hj].
  simpl. rewrite IH by by apply store_cell_shape.
  destruct (existsb _ ks); [by rewrite orb_true_r|]. rewrite orb_false_r.
  rewrite cell_at_store_cell_NoDup by done.
  destruct (decide _) as [[-> ->]|Hne].
  - by rewrite !Z.eqb_refl.
  - destruct (_ =? i') eqn:E1, (_ =? j') eqn:E2; simpl; try done.
    apply Z.eqb_eq in E1, E2. exfalso. apply Hne. done.
Qed.

Lemma trailing_spec (a : axis) (i j L i' j' : Z) :
  existsb (λ k, ((offset a i j k).1 =? i') && ((offset a i j k).2 =? j')) (range 1 L)
  = trailing a i j L i' j'.
Proof.
  apply eq_true_iff_eq. rewrite existsb_exists. unfold trailing. split.
  - intros (k & Hk%list_elem_of_In%elem_of_range & [E1%Z.eqb_eq E2%Z.eqb_eq]%andb_true_iff).
    destruct a; simpl in *; rewrite !andb_true_iff, Z.eqb_eq, !Z.ltb_lt; lia.
  - destruct a; rewrite !andb_true_iff, Z.eqb_eq, !Z.ltb_lt; intros [[-> ?] ?].
    + exists (i' - i). rewrite <- list_elem_of_In, elem_of_range. simpl.
      rewrite andb_true_iff, !Z.eqb_eq. lia.
    + exists (j' - j). rewrite <- list_elem_of_In, elem_of_range. simpl.
      rewrite andb_true_iff, !Z.eqb_eq. lia.
Qed.

(** Clearing the trailing cells of a ship that lies on the board. *)
Lemma cell_at_clear (a : axis) (i j L : Z) (h : list (list Z)) (i' j' : Z) :
  shape10 h b → 0 ≤ i < 10 → 0 ≤ j < 10 →
  match a with Vertical => i + L ≤ 10 | Horizontal => j + L ≤ 10 end →
  0 ≤ i' < 10 → 0 ≤ j' < 10 →
  cell_at (clear b a i j L h) b i' j'
  = if trailing a i j L i' j' then 0 else cell_at h b i' j'.
Proof using Hnd.
  intros Hs Hi Hj HL Hi' Hj'. unfold clear.
  rewrite cell_at_clear_list, trailing_spec; [done..|].
  apply Forall_forall. intros k Hk%elem_of_range. apply on_board_spec.
  destruct a; simpl; lia.
Qed.

Lemma clear_shape (a : axis) (i j L : Z) (h : list (list Z)) :
  shape10 h b → shape10 (clear b a i j L h) b.
Proof.
  intros Hs. unfold clear. generalize (range 1 L). intros ks. revert h Hs.
  induction ks as [|k ks IH]; intros h Hs; [done|].
  simpl. by apply IH, store_cell_shape.
Qed.

End clear_cells.

Lemma foldl_seqZ_inv {S} (P : Z → S → Prop) (f : S → Z → S) (a n : Z) (s : S) :
  0 ≤ n →
  (∀ k s', a ≤ k < a + n → P k s' → P (k + 1) (f s' k)) →
  P a s → P (a + n) (foldl f s (seqZ a n)).
Proof.
  intros Hn. revert a s. pattern n. apply natlike_ind; [| |exact Hn].
  - intros a s _ Hs. by rewrite Z.add_0_r.
  - intros m Hm IH a s Hstep Hs. rewrite seqZ_cons by lia. simpl.
    replace (Z.pred (Z.succ m)) with m by lia.
    replace (a + Z.succ m) with (Z.succ a + m) by lia.
    apply IH.
    + intros k s' Hk. apply Hstep. lia.
    + replace (Z.succ a) with (a + 1) by lia. apply Hstep; [lia|done].
Qed.

Section fleet_scan.
Context (F : list ship) (b : list nat).
Hypothesis Hlegal : legal F.
Hypothesis Hnd : NoDup b.

Import FleetCounter.

Lemma fleet_inv_status (i j : Z) (st : list (list Z) * gmap Z Z) (i' j' : Z) :
  fleet_inv F b i j st → status st.1 b i' j' = Z.b2z (live F i j i' j').
Proof using Hlegal.
  intros Hinv. unfold status. destruct (on_board i' j') eqn:E.
  - apply on_board_spec in E as [Hi Hj]. by apply (inv_cells _ _ _ _ _ Hinv).
  - destruct (live F i j i' j') eqn:Hl; [|done].
    apply live_covered, (covered_on_board F Hlegal), on_board_spec in Hl. congruence.
Qed.

Lemma fleet_inv_occupied (i j : Z) (st : list (list Z) * gmap Z Z) (i' j' : Z) :
  fleet_inv F b i j st → occupied st.1 b i' j' = live F i j i' j'.
Proof using Hlegal.
  intros Hinv. unfold occupied. rewrite (fleet_inv_status i j) by done.
  by destruct (live F i j i' j').
Qed.

(** The invariant depends on the position through [before] only. *)
Lemma fleet_inv_ext (i j i2 j2 : Z) (st : list (list Z) * gmap Z Z) :
  (∀ t, t ∈ F → before t i2 j2 = before t i j) →
  fleet_inv F b i j st → fleet_inv F b i2 j2 st.
Proof.
  intros Hb [Hs Hc Ht]. split; [done| |].
  - intros i' j' Hi' Hj'. rewrite Hc by done. f_equal.
    apply eq_true_iff_eq. rewrite !live_spec.
    split; intros (t & Hin & Hcov & Hor); exists t; split_and!; try done.
    + by rewrite Hb.
    + by rewrite <- Hb.
  - intros L HL. rewrite Ht by done. f_equal. apply count_ships_ext.
    intros t Hin. unfold pending. by rewrite Hb.
Qed.

(** From the end of a row to the start of the next one. *)
Lemma fleet_inv_next_row (i : Z) (st : list (list Z) * gmap Z Z) :
  fleet_inv F b i 10 st → fleet_inv F b (i + 1) 0 st.
Proof using Hlegal.
  apply fleet_inv_ext. intros t Ht.
  destruct (legal_ship_fits F Hlegal t Ht) as (Hn & Hr & Hc & Hv).
  apply eq_true_iff_eq. rewrite !before_spec.
  destruct (ship_vertical t); lia.
Qed.

(** A cell where no ship starts is empty when the scan reaches it. *)
Lemma fleet_step_empty (i j : Z) (st : list (list Z) * gmap Z Z) :
  live F i j i j = false → fleet_inv F b i j st → fleet_inv F b i (j + 1) st.
Proof using Hlegal.
  intros Hl. apply fleet_inv_ext. intros t Ht.
  rewrite before_next. destruct (is_origin t i j) eqn:Eo; [|by rewrite orb_false_r].
  exfalso. assert (live F i j i j = true); [|congruence].
  apply live_spec. exists t. split_and!; [done| |by right].
  apply is_origin_spec in Eo as [<- <-]. apply covers_origin.
  destruct (legal_ship_fits F Hlegal t Ht) as (? & _). lia.
Qed.

Section at_origin.
Context (s : ship) (i j : Z) (st : list (list Z) * gmap Z Z).
Hypothesis Hs : s ∈ F.
Hypothesis Ho : is_origin s i j = true.
Hypothesis Hinv : fleet_inv F b i j st.

(** Next to a cell of [s], the occupied cells are the cells of [s]. *)
Lemma live_near (i0 j0 i' j' : Z) :
  covers s i0 j0 = true → Z.abs (i0 - i') ≤ 1 → Z.abs (j0 - j') ≤ 1 →
  live F i j i' j' = covers s i' j'.
Proof using Hlegal Hs Ho.
  intros Hc0 Hi Hj. destruct (covers s i' j') eqn:Hc.
  - apply live_spec. exists s. split_and!; [done|done|].
    left. by apply origin_not_before.
  - destruct (live F i j i' j') eqn:Hl; [|done].
    apply live_covered in Hl.
    by rewrite (covered_near F Hlegal s i0 j0 i' j') in Hl.
Qed.

Lemma extends_own_axis (L : Z) :
  1 ≤ L → extends st.1 b (axis_of s) i j L = (L <=? ship_len s).
Proof using Hlegal Hs Ho Hinv.
  intros HL.
  destruct (legal_ship_fits F Hlegal s Hs) as (Hn & _).
  apply is_origin_spec in Ho as Ho'. destruct Ho' as [Hrow Hcol].
  apply eq_true_iff_eq. unfold extends. rewrite forallb_forall, Z.leb_le. split.
  - intros H. destruct (decide (L ≤ ship_len s)) as [|Hgt]; [done|]. exfalso.
    specialize (H (ship_len s)). rewrite <- list_elem_of_In, elem_of_range in H.
    specialize (H ltac:(lia)).
    rewrite (fleet_inv_occupied i j) in H by done.
    rewrite (live_near ((offset (axis_of s) i j (ship_len s - 1)).1)
               ((offset (axis_of s) i j (ship_len s - 1)).2)) in H.
    + apply covers_spec in H. unfold axis_of in H.
      destruct (ship_vertical s); simpl in H; intuition (try discriminate; lia).
    + apply covers_spec. unfold axis_of. destruct (ship_vertical s); simpl; [left|right]; lia.
    + unfold axis_of. destruct (ship_vertical s); simpl; lia.
    + unfold axis_of. destruct (ship_vertical s); simpl; lia.
  - intros Hle k Hk%list_elem_of_In%elem_of_range.
    rewrite (fleet_inv_occupied i j) by done.
    apply live_spec. exists s. split_and!; [done| |left; by apply origin_not_before].
    apply covers_spec. unfold axis_of. destruct (ship_vertical s); simpl; [left|right]; lia.
Qed.

Lemma extends_other_axis (a : axis) (L : Z) :
  a ≠ axis_of s → 1 ≤ L → extends st.1 b a i j L = (L <=? 1).
Proof using Hlegal Hs Ho Hinv.
  intros Ha HL.
  destruct (legal_ship_fits F Hlegal s Hs) as (Hn & _).
  apply is_origin_spec in Ho as Ho'. destruct Ho' as [Hrow Hcol].
  apply eq_true_iff_eq. unfold extends. rewrite forallb_forall, Z.leb_le. split.
  - intros H. destruct (decide (L ≤ 1)) as [|Hgt]; [done|]. exfalso.
    specialize (H 1). rewrite <- list_elem_of_In, elem_of_range in H.
    specialize (H ltac:(lia)).
    rewrite (fleet_inv_occupied i j) in H by done.
    rewrite (live_near i j) in H.
    + apply covers_spec in H. unfold axis_of in Ha.
      destruct a, (ship_vertical s); simpl in H; try done;
        intuition (try discriminate; lia).
    + rewrite <- Hrow, <- Hcol. apply covers_origin. lia.
    + destruct a; simpl; lia.
    + destruct a; simpl; lia.
  - intros Hle k Hk%list_elem_of_In%elem_of_range. lia.
Qed.

Lemma other_axis_vertical : ship_vertical s = false → Vertical ≠ axis_of s.
Proof. unfold axis_of. by intros ->. Qed.

Lemma other_axis_horizontal : ship_vertical s = true → Horizontal ≠ axis_of s.
Proof. unfold axis_of. by intros ->. Qed.

(** The ship that starts at the cell is attributed its length. *)
Lemma ship_length_origin : ship_length st.1 b i j = ship_len s.
Proof using Hlegal Hs Ho Hinv.
  destruct (legal_ship_fits F Hlegal s Hs) as (Hn & _).
  unfold ship_length, matches.
  destruct (ship_vertical s) eqn:Ev.
  - pose proof (extends_own_axis) as Hown. unfold axis_of in Hown. rewrite Ev in Hown.
    rewrite !Hown by lia.
    rewrite !(extends_other_axis Horizontal) by (lia || by apply other_axis_horizontal).
    assert (ship_len s = 1 ∨ ship_len s = 2 ∨ ship_len s = 3 ∨ ship_len s = 4)
      as [->|[->|[->| ->]]] by lia; done.
  - pose proof (extends_own_axis) as Hown. unfold axis_of in Hown. rewrite Ev in Hown.
    rewrite !Hown by lia.
    rewrite !(extends_other_axis Vertical) by (lia || by apply other_axis_vertical).
    assert (ship_len s = 1 ∨ ship_len s = 2 ∨ ship_len s = 3 ∨ ship_len s = 4)
      as [->|[->|[->| ->]]] by lia; done.
Qed.

(** Its trailing cells are cleared, along its axis. *)
Lemma clear_matched_origin :
  clear_matched b i j (ship_len s) st.1 = clear b (axis_of s) i j (ship_len s) st.1.
Proof using Hlegal Hs Ho Hinv.
  destruct (legal_ship_fits F Hlegal s Hs) as (Hn & _).
  unfold clear_matched.
  destruct (ship_vertical s) eqn:Ev.
  - pose proof (extends_own_axis) as Hown. unfold axis_of in Hown |- *. rewrite Ev in Hown |- *.
    rewrite Hown by lia.
    rewrite (extends_other_axis Horizontal) by (lia || by apply other_axis_horizontal).
    rewrite Z.leb_refl.
    destruct (ship_len s <=? 1) eqn:E1; [|done].
    apply Z.leb_le in E1. by replace (ship_len s) with 1 by lia.
  - pose proof (extends_own_axis) as Hown. unfold axis_of in Hown |- *. rewrite Ev in Hown |- *.
    rewrite Hown by lia.
    rewrite (extends_other_axis Vertical) by (lia || by apply other_axis_vertical).
    rewrite Z.leb_refl.
    destruct (ship_len s <=? 1) eqn:E1; [|done].
    apply Z.leb_le in E1. by replace (ship_len s) with 1 by lia.
Qed.

Lemma before_after_origin (t : ship) :
  t ∈ F → before t i (j + 1) = if decide (t = s) then true else before t i j.
Proof using Hlegal Hs Ho.
  intros Ht. rewrite before_next.
  destruct (decide (t = s)) as [->|Hne]; [by rewrite Ho, orb_true_r|].
  destruct (is_origin t i j) eqn:Eo; [|by rewrite orb_false_r].
  exfalso. apply Hne.
  apply is_origin_spec in Eo as [Hr Hc]. apply is_origin_spec in Ho as [Hr' Hc'].
  destruct (legal_ship_fits F Hlegal s Hs) as (Hn & _).
  destruct (legal_ship_fits F Hlegal t Ht) as (Hn' & _).
  apply (legal_same_ship F Hlegal t s i j i j); try done; try lia.
  - rewrite <- Hr, <- Hc. apply covers_origin. lia.
  - rewrite <- Hr', <- Hc'. apply covers_origin. lia.
Qed.

(** The occupied cells after the step: the trailing cells of [s] are
    gone. *)
Lemma live_after_origin (i' j' : Z) :
  live F i (j + 1) i' j' =
  if trailing (axis_of s) i j (ship_len s) i' j' then false else live F i j i' j'.
Proof using Hlegal Hs Ho.
  destruct (legal_ship_fits F Hlegal s Hs) as (Hn & _).
  apply is_origin_spec in Ho as Ho'. destruct Ho' as [Hrow Hcol].
  assert (trailing (axis_of s) i j (ship_len s) i' j'
          = covers s i' j' && negb (is_origin s i' j')) as ->.
  { apply eq_true_iff_eq.
    rewrite andb_true_iff, negb_true_iff, covers_spec.
    rewrite <- (not_true_iff_false (is_origin s i' j')), is_origin_spec.
    unfold trailing, axis_of. destruct (ship_vertical s);
      rewrite !andb_true_iff, Z.eqb_eq, !Z.ltb_lt; intuition (try discriminate; lia). }
  destruct (covers s i' j') eqn:Hc; simpl.
  - assert (∀ t, t ∈ F → covers t i' j' = true → t = s) as Honly.
    { intros t Ht Hct. apply (legal_same_ship F Hlegal t s i' j' i' j'); try done; lia. }
    destruct (is_origin s i' j') eqn:Eo; simpl.
    + transitivity true; [|symmetry]; apply live_spec; exists s; auto.
    + destruct (live F i (j + 1) i' j') eqn:Hl; [|done].
      apply live_spec in Hl as (t & Ht & Hct & Hor).
      rewrite (Honly t Ht Hct) in Hor.
      rewrite before_after_origin, decide_True in Hor by done.
      destruct Hor; congruence.
  - apply eq_true_iff_eq. rewrite !live_spec.
    split; intros (t & Ht & Hct & Hor); exists t; split_and!; try done.
    + rewrite before_after_origin in Hor by done.
      destruct (decide (t = s)) as [->|]; [congruence|done].
    + rewrite before_after_origin by done.
      destruct (decide (t = s)) as [->|]; [congruence|done].
Qed.

Lemma pending_after_origin (L : Z) :
  1 ≤ L ≤ 4 →
  alter (λ count, count - 1) (ship_len s) st.2 !! L
  = Some (count_ships (pending i (j + 1) L) F).
Proof using Hlegal Hs Ho Hinv.
  intros HL. destruct (decide (L = ship_len s)) as [->|Hne].
  - rewrite lookup_alter_eq, (inv_tally _ _ _ _ _ Hinv) by done. simpl. f_equal.
    symmetry. apply (count_ships_remove _ _ F s); [by apply legal_NoDup|done| |].
    + unfold pending. by rewrite Z.eqb_refl, origin_not_before.
    + intros t Ht. unfold pending. rewrite before_after_origin by done.
      destruct (decide (t = s)); [by rewrite andb_false_r|done].
  - rewrite lookup_alter_ne, (inv_tally _ _ _ _ _ Hinv) by done. f_equal.
    apply count_ships_ext. intros t Ht. unfold pending.
    rewrite before_after_origin by done.
    destruct (decide (t = s)) as [->|]; [|done].
    assert ((ship_len s =? L) = false) as -> by (apply Z.eqb_neq; lia). done.
Qed.

Lemma fleet_step_origin :
  0 ≤ i < 10 → 0 ≤ j < 10 →
  fleet_inv F b i (j + 1)
    (clear_matched b i j (ship_len s) st.1, alter (λ count, count - 1) (ship_len s) st.2).
Proof using Hlegal Hnd Hs Ho Hinv.
  intros Hi Hj.
  destruct (legal_ship_fits F Hlegal s Hs) as (Hn & Hr & Hc & Hv).
  apply is_origin_spec in Ho as Ho'. destruct Ho' as [Hrow Hcol].
  rewrite clear_matched_origin. split; cbn [fst snd].
  - apply clear_shape, Hinv.
  - intros i' j' Hi' Hj'.
    rewrite cell_at_clear; try done; try apply Hinv.
    + rewrite live_after_origin, (inv_cells _ _ _ _ _ Hinv) by done.
      by destruct (trailing _ _ _ _ _ _).
    + unfold axis_of. destruct (ship_vertical s); lia.
  - apply pending_after_origin.
Qed.

End at_origin.

(** One cell of the scan. *)
Lemma fleet_step (i j : Z) (st : list (list Z) * gmap Z Z) :
  0 ≤ i < 10 → 0 ≤ j < 10 →
  fleet_inv F b i j st → fleet_inv F b i (j + 1) (step b i j st).
Proof using Hlegal Hnd.
  intros Hi Hj Hinv. unfold step.
  rewrite (fleet_inv_occupied i j) by done.
  destruct (live F i j i j) eqn:Hl; [|by apply fleet_step_empty].
  apply live_spec in Hl as (s & Hs & Hc & Hor).
  assert (is_origin s i j = true) as Ho.
  { destruct Hor as [Hb|]; [|done]. by apply covers_not_before. }
  cbv zeta. rewrite (ship_length_origin s i j st Hs Ho Hinv).
  by apply fleet_step_origin.
Qed.

Lemma fleet_scan_row (i : Z) (st : list (list Z) * gmap Z Z) :
  0 ≤ i < 10 → fleet_inv F b i 0 st → fleet_inv F b (i + 1) 0 (scan_row b i st).
Proof using Hlegal Hnd.
  intros Hi Hinv. apply fleet_inv_next_row. unfold scan_row, range.
  apply (foldl_seqZ_inv (λ j st', fleet_inv F b i j st') (λ st' j, step b i j st') 0 (10 - 0));
    [lia| |done].
  intros j st' Hj. apply fleet_step; [done|lia].
Qed.

Lemma fleet_scan (st : list (list Z) * gmap Z Z) :
  fleet_inv F b 0 0 st → fleet_inv F b 10 0 (scan b st).
Proof using Hlegal Hnd.
  intros Hinv. unfold scan, range.
  apply (foldl_seqZ_inv (λ i st', fleet_inv F b i 0 st') (λ st' i, scan_row b i st') 0 (10 - 0));
    [lia| |done].
  intros i st' Hi. apply fleet_scan_row. lia.
Qed.

(** At the end every ship has been counted. *)
Lemma fleet_inv_complete (st : list (list Z) * gmap Z Z) :
  fleet_inv F b 10 0 st → complete st.2 = true.
Proof using Hlegal.
  intros Hinv. unfold complete. apply forallb_forall.
  intros L HL%list_elem_of_In%elem_of_range. apply bool_decide_eq_true.
  rewrite (inv_tally _ _ _ _ _ Hinv) by lia. f_equal.
  apply count_ships_none. intros t Ht. unfold pending.
  destruct (legal_ship_fits F Hlegal t Ht) as (Hn & Hr & Hc & Hv).
  assert (before t 10 0 = true) as ->; [|by rewrite andb_false_r].
  apply before_spec. destruct (ship_vertical t); lia.
Qed.

(** At the start no ship has. *)
Lemma fleet_inv_start (h : list (list Z)) :
  contents h b = render F → fleet_inv F b 0 0 (h, expected).
Proof using Hlegal.
  intros Hr.
  assert (∀ t, t ∈ F → before t 0 0 = false) as Hb.
  { intros t Ht. destruct (legal_ship_fits F Hlegal t Ht) as (Hn & Hr' & Hc & Hv).
    apply before_false_spec. lia. }
  split; cbn [fst snd].
  - by apply (rendered_shape F).
  - intros i' j' Hi' Hj'. rewrite (rendered_cell F h b Hr) by done. f_equal.
    apply eq_true_iff_eq. rewrite live_spec, covered_spec.
    split; [intros (t & Ht & Hc)|intros (t & Ht & Hc & _)]; exists t; auto.
  - intros L HL.
    rewrite (count_ships_ext (pending 0 0 L) (λ t, ship_len t =? L)).
    2:{ intros t Ht. unfold pending. rewrite Hb by done. apply andb_true_r. }
    destruct (legal_counts F Hlegal) as (H4 & H3 & H2 & H1).
    unfold count_len in *.
    assert (L = 1 ∨ L = 2 ∨ L = 3 ∨ L = 4) as [->|[->|[->| ->]]] by lia.
    + by rewrite H1.
    + by rewrite H2.
    + by rewrite H3.
    + by rewrite H4.
Qed.

End fleet_scan.

(** The rows of the working copy are ten objects when the rows of the board
    are. *)
Lemma copy_of_NoDup (h0 h' : list (list Z)) (b b' : list nat) :
  copy_of h0 b h' b' → NoDup b → NoDup b'.
Proof.
  intros Hcopy Hnd. apply NoDup_alt. intros i i' r' Hi Hi'.
  assert (is_Some (b !! i)) as [r1 H1].
  { apply lookup_lt_is_Some. rewrite <- (copy_length _ _ _ _ Hcopy).
    by eapply lookup_lt_Some. }
  assert (is_Some (b !! i')) as [r2 H2].
  { apply lookup_lt_is_Some. rewrite <- (copy_length _ _ _ _ Hcopy).
    by eapply lookup_lt_Some. }
  assert (r1 = r2) as <- by by apply (copy_alias _ _ _ _ Hcopy i i' r1 r2 r' r').
  by eapply NoDup_lookup.
Qed.

(** * Further properties *)

(** ** A legal fleet is accepted *)

(** The ships of the board [legal_fleet]. *)
Definition legal_ships : list ship :=
  [ Ship 0 0 4 true; Ship 0 5 2 false; Ship 1 2 2 true; Ship 1 8 2 true;
    Ship 2 4 3 false; Ship 4 8 1 false; Ship 5 4 3 false; Ship 6 8 1 false;
    Ship 7 3 1 false; Ship 8 7 1 false ].

(** X2.  A board whose ten rows are ten different list objects and which
    depicts a legal fleet (one ship of 4 cells, two of 3, three of 2 and four
    of 1, straight, on the board, no two of them touching by a side or by a
    corner) makes [validate_battlefield] return [True], and nothing is
    logged. *)
Theorem legal_fleet_on_distinct_rows_is_accepted (F : list ship) (field : list nat)
    (h : list (list Z)) (log : list string) :
  legal F → NoDup field → contents h field = render F →
  ∃ h', validate_battlefield field (h, log) = (Ok true, (h', log)).
Proof.
  intros Hlegal Hnd Hr.
  pose proof (rendered_shape F h field Hr) as Hs.
  pose proof (rendered_contact_ok F Hlegal h field Hr) as Hc.
  rewrite validate_battlefield_fleet by done. cbv zeta.
  pose proof (deepcopy_rows_copy_of h field (shape10_wf _ _ Hs)) as Hcopy.
  destruct (deepcopy_rows ∅ field h) as [b' h'] eqn:E. cbn [fst snd] in *.
  assert (fleet_inv F b' 10 0 (FleetCounter.scan b' (h', FleetCounter.expected))) as Hinv.
  { apply fleet_scan; [done|by eapply copy_of_NoDup|].
    apply fleet_inv_start; [done|].
    by rewrite (copy_contents _ _ _ _ Hcopy). }
  rewrite (fleet_inv_complete F b' Hlegal _ Hinv). eauto.
Qed.

Lemma legal_fleet_on_distinct_rows_is_accepted_witness :
  ∃ h', validate_battlefield ten_rows (legal_fleet, []) = (Ok true, (h', [])).
Proof.
  apply (legal_fleet_on_distinct_rows_is_accepted legal_ships ten_rows legal_fleet []).
  - apply legalb_sound. vm_compute. reflexivity.
  - apply NoDup_seq.
  - vm_compute. reflexivity.
Defined.

(** ** The result, the matrix and the sharing of rows *)

(** The fleet counter's verdict on two boards that denote the same matrix and
    share their rows in the same way. *)
Lemma fleet_result_sharing_eq (h1 h2 : list (list Z)) (f1 f2 : list nat) :
  shape10 h2 f2 → contents h1 f1 = contents h2 f2 →
  (∀ i i', 0 ≤ i < 10 → 0 ≤ i' < 10 →
     f1 !!! Z.to_nat i = f1 !!! Z.to_nat i' ↔ f2 !!! Z.to_nat i = f2 !!! Z.to_nat i') →
  FleetCounter.complete
    (FleetCounter.scan (deepcopy_rows ∅ f1 h1).1
       ((deepcopy_rows ∅ f1 h1).2, FleetCounter.expected)).2
  = FleetCounter.complete
      (FleetCounter.scan (deepcopy_rows ∅ f2 h2).1
         ((deepcopy_rows ∅ f2 h2).2, FleetCounter.expected)).2.
Proof.
  intros Hs2 Hc Hshare.
  pose proof (shape10_contents _ _ _ _ Hc Hs2) as Hs1.
  pose proof (deepcopy_rows_copy_of h1 f1 (shape10_wf _ _ Hs1)) as Hcopy1.
  pose proof (deepcopy_rows_copy_of h2 f2 (shape10_wf _ _ Hs2)) as Hcopy2.
  destruct (deepcopy_rows ∅ f1 h1) as [b1 h1'].
  destruct (deepcopy_rows ∅ f2 h2) as [b2 h2']. cbn [fst snd] in *.
  assert (length f1 = 10%nat) as Hlen1 by apply Hs1.
  assert (length f2 = 10%nat) as Hlen2 by apply Hs2.
  destruct (same_state_scan b1 b2) with (s1 := (h1', FleetCounter.expected))
    (s2 := (h2', FleetCounter.expected)) as [_ ->]; [| |done].
  - intros i i' Hi Hi'.
    rewrite (copy_alias_total _ _ _ _ i i' Hcopy1 Hlen1 Hi Hi').
    rewrite (copy_alias_total _ _ _ _ i i' Hcopy2 Hlen2 Hi Hi').
    by apply Hshare.
  - split; [|done]. cbn [fst].
    split_and!; [by eapply copy_of_shape|by eapply copy_of_shape|].
    intros i j Hi Hj. apply cell_at_contents_eq; [by eapply copy_of_shape| |done|done].
    rewrite (copy_contents _ _ _ _ Hcopy1), (copy_contents _ _ _ _ Hcopy2). done.
Qed.

(** X3.  The boolean that [validate_battlefield] returns is determined by the
    matrix the board denotes together with the sharing of its rows: two
    boards, in any two stores, that denote the same matrix and in which the
    same row positions hold one list object get the same answer. *)
Theorem result_determined_by_matrix_and_sharing (f1 f2 : list nat)
    (h1 h2 : list (list Z)) (log1 log2 : list string) :
  contents h1 f1 = contents h2 f2 →
  (∀ i i', 0 ≤ i < 10 → 0 ≤ i' < 10 →
     f1 !!! Z.to_nat i = f1 !!! Z.to_nat i' ↔ f2 !!! Z.to_nat i = f2 !!! Z.to_nat i') →
  (validate_battlefield f1 (h1, log1)).1 = (validate_battlefield f2 (h2, log2)).1.
Proof.
  intros Hc Hshare. destruct (shape10_dec h2 f2) as [Hs2|Hn2].
  - pose proof (shape10_contents _ _ _ _ Hc Hs2) as Hs1.
    destruct (contact_validate_cases h2 f2 Hs2) as [Hv|[msg Hv]].
    + pose proof (contact_validate_contents_eq _ _ _ _ Hs2 Hc Hv) as Hv'.
      rewrite !validate_battlefield_fleet by done. cbv zeta.
      rewrite (fleet_result_sharing_eq h1 h2 f1 f2 Hs2 Hc Hshare).
      by destruct (FleetCounter.complete _).
    + rewrite (validate_battlefield_contact_fails _ _ _ _ Hs2 Hv).
      destruct (contact_validate_cases h1 f1 Hs1) as [Hv'|[msg' Hv']].
      * symmetry in Hc.
        pose proof (contact_validate_contents_eq _ _ _ _ Hs1 Hc Hv'). congruence.
      * by rewrite (validate_battlefield_contact_fails _ _ _ _ Hs1 Hv').
  - assert (¬ shape10 h1 f1) as Hn1.
    { intros Hs1. apply Hn2. symmetry in Hc. by eapply shape10_contents. }
    destruct (validate_battlefield_not_shape f2 h2 log2 Hn2) as (msg & _ & ->).
    by destruct (validate_battlefield_not_shape f1 h1 log1 Hn1) as (msg' & _ & ->).
Qed.

(** The board [legal_fleet] as ten row objects, and the same matrix held by
    ten other objects, further up in a store that also holds an unrelated
    object. *)
Lemma result_determined_by_matrix_and_sharing_witness :
  (validate_battlefield ten_rows (legal_fleet, [])).1
  = (validate_battlefield (seq 1 10) (empty_row :: legal_fleet, ["earlier message"])).1.
Proof.
  apply (result_determined_by_matrix_and_sharing ten_rows (seq 1 10)
           legal_fleet (empty_row :: legal_fleet) [] ["earlier message"]).
  - vm_compute. reflexivity.
  - intros i i' Hi Hi'. unfold ten_rows.
    rewrite !lookup_total_seq_lt by lia. lia.
Defined.

(** A legal fleet on a board that uses one list object for two of its rows,
    and one other object for its six empty rows. *)
Definition shared_ships : list ship :=
  [ Ship 0 0 3 false; Ship 2 0 3 false; Ship 4 0 4 false; Ship 4 5 2 false;
    Ship 4 8 2 false; Ship 6 0 2 false; Ship 6 3 1 false; Ship 6 5 1 false;
    Ship 6 7 1 false; Ship 6 9 1 false ].

Definition shared_store : list (list Z) :=
  [ [1; 1; 1; 0; 0; 0; 0; 0; 0; 0];
    empty_row;
    [1; 1; 1; 1; 0; 1; 1; 0; 1; 1];
    [1; 1; 0; 1; 0; 1; 0; 1; 0; 1] ].

Definition shared_field : list nat := [0; 1; 0; 1; 2; 1; 3; 1; 1; 1]%nat.

(** X4.  The matrix alone does not determine the result.  The deep copy the
    fleet counter works on keeps the sharing of the caller's rows, so
    clearing the trailing cells of a ship in one row clears them in every row
    that is the same object.  The board [shared_field] depicts a legal fleet
    and is rejected ("Ships are incorrect"); the same matrix on ten separate
    rows is accepted. *)
Theorem shared_rows_change_the_result :
  legal shared_ships
  ∧ contents shared_store shared_field = render shared_ships
  ∧ (validate_battlefield shared_field (shared_store, [])).1 = Ok false
  ∧ (validate_battlefield shared_field (shared_store, [])).2.2 = ["Ships are incorrect"]
  ∧ validate_matrix (render shared_ships) = Ok true.
Proof.
  split_and!.
  - apply legalb_sound. vm_compute. reflexivity.
  - vm_compute. reflexivity.
  - vm_compute. reflexivity.
  - vm_compute. reflexivity.
  - vm_compute. reflexivity.
Qed.

(** ** Reading a cell *)

(** Python's indexing of a list of [n] items: the indices from [-n] to
    [n - 1] designate an item, the negative ones counting from the end. *)
Lemma getitem_python {A} `{Inhabited A} (xs : list A) (n i : Z) :
  Z.of_nat (length xs) = n → 0 < n →
  getitem xs i =
  if (- n <=? i) && (i <? n) then Ok (xs !!! Z.to_nat (i mod n)) else Raise IndexError.
Proof.
  intros Hn Hpos. unfold getitem, py_index. rewrite Hn.
  destruct (Z.ltb_spec i 0) as [Hneg|Hnn].
  - destruct (Z.leb_spec 0 (i + n)) as [Hlo|Hlo]; simpl.
    + destruct (Z.ltb_spec (i + n) n) as [_|?]; [|lia].
      destruct (Z.leb_spec (- n) i) as [_|?]; [|lia].
      destruct (Z.ltb_spec i n) as [_|?]; [|lia]. simpl.
      replace (i mod n) with (i + n).
      2:{ apply (Z.mod_unique i n (-1)); lia. }
      rewrite (list_lookup_lookup_total_lt xs (Z.to_nat (i + n))) by lia. done.
    + destruct (Z.leb_spec (- n) i) as [?|_]; [lia|]. done.
  - destruct (Z.leb_spec 0 i) as [_|?]; [|lia]. simpl.
    destruct (Z.leb_spec (- n) i) as [_|?]; [|lia]. simpl.
    destruct (Z.ltb_spec i n) as [Hlt|Hge]; [|done].
    rewrite Z.mod_small by lia.
    rewrite (list_lookup_lookup_total_lt xs (Z.to_nat i)) by lia. done.
Qed.

(** X5.  [inspect_cell] indexes the board as Python does, with no check of
    its own: on a 10x10 board the coordinates from -10 to 9 designate a cell,
    the negative ones counting from the last row and the last column, and any
    other coordinate raises [IndexError]. *)
Theorem inspect_cell_indexing (h : list (list Z)) (b : list nat) (i j : Z) :
  shape10 h b →
  inspect_cell h b i j =
  if (-10 <=? i) && (i <? 10) && ((-10 <=? j) && (j <? 10))
  then Ok (cell_at h b (i mod 10) (j mod 10))
  else Raise IndexError.
Proof.
  intros Hs. unfold inspect_cell, read_cell.
  assert (length b = 10%nat) as Hlen by apply Hs.
  rewrite (getitem_python b 10 i) by lia. change (Z.opp 10) with (-10).
  destruct ((-10 <=? i) && (i <? 10)) eqn:Ei; [|done].
  cbn [andb]. unfold mbind, res_mbind, res_bind.
  assert (0 ≤ i mod 10 < 10) as Hi by (apply Z.mod_pos_bound; lia).
  pose proof (shape10_row h b _ Hs Hi) as Hrow.
  rewrite (getitem_python _ 10 j) by lia. change (Z.opp 10) with (-10).
  done.
Qed.

Lemma inspect_cell_indexing_witness :
  inspect_cell legal_fleet ten_rows (-9) (-2) =
  if (-10 <=? -9) && (-9 <? 10) && ((-10 <=? -2) && (-2 <? 10))
  then Ok (cell_at legal_fleet ten_rows (-9 mod 10) (-2 mod 10))
  else Raise IndexError.
Proof.
  apply (inspect_cell_indexing legal_fleet ten_rows (-9) (-2)).
  apply shape10_ten_rows; [reflexivity|]. repeat constructor.
Defined.

(** ** The extension tests *)

(** X6.  A ship of two cells or more cannot run off the board: when the last
    of the cells looked at lies beyond the last row (column), or before the
    first one, [validate_ship_vertically] ([validate_ship_horizontally])
    answers [False]; it does not raise and does not wrap around. *)
Theorem extension_past_the_border (h : list (list Z)) (b : list nat) (i j L : Z) :
  shape10 h b → 2 ≤ L →
  (10 < i + L ∨ i + L ≤ 0 →
     BattleShipsQuantityValidator.validate_ship_vertically h b i j L = Ok false)
  ∧ (10 < j + L ∨ j + L ≤ 0 →
     BattleShipsQuantityValidator.validate_ship_horizontally h b i j L = Ok false).
Proof.
  intros Hs HL. split; intros Hout.
  - rewrite validate_ship_vertically_eq by done. f_equal.
    destruct (FleetCounter.extends h b FleetCounter.Vertical i j L) eqn:E; [|done].
    pose proof (extends_on_board b h FleetCounter.Vertical i j L (L - 1) E ltac:(lia)) as Hon.
    apply on_board_spec in Hon. simpl in Hon. lia.
  - rewrite validate_ship_horizontally_eq by done. f_equal.
    destruct (FleetCounter.extends h b FleetCounter.Horizontal i j L) eqn:E; [|done].
    pose proof (extends_on_board b h FleetCounter.Horizontal i j L (L - 1) E ltac:(lia)) as Hon.
    apply on_board_spec in Hon. simpl in Hon. lia.
Qed.

(** The four-cell tests at the cell (7, 7) of [legal_fleet]: the fourth cell
    would be in row 10, or in column 10. *)
Lemma extension_past_the_border_witness :
  (10 < 7 + 4 ∨ 7 + 4 ≤ 0 →
     BattleShipsQuantityValidator.validate_ship_vertically legal_fleet ten_rows 7 7 4
     = Ok false)
  ∧ (10 < 7 + 4 ∨ 7 + 4 ≤ 0 →
     BattleShipsQuantityValidator.validate_ship_horizontally legal_fleet ten_rows 7 7 4
     = Ok false).
Proof.
  apply (extension_past_the_border legal_fleet ten_rows 7 7 4).
  - apply shape10_ten_rows; [reflexivity|]. repeat constructor.
  - lia.
Defined.

(** X7.  With a length of 1 or less the extension tests look at no cell, so
    [drop_ship] reports a match and assigns to nothing, on any board in any
    store, of the required shape or not, and at any coordinates. *)
Theorem drop_ship_of_one_cell (h : list (list Z)) (b : list nat) (i j L : Z) :
  L ≤ 1 → BattleShipsQuantityValidator.drop_ship b i j L h = (Ok true, h).
Proof.
  intros HL.
  unfold BattleShipsQuantityValidator.drop_ship,
    BattleShipsQuantityValidator.validate_ship_vertically,
    BattleShipsQuantityValidator.validate_ship_horizontally,
    BattleShipsQuantityValidator.drop_vertically,
    BattleShipsQuantityValidator.drop_horizontally.
  unfold range. rewrite seqZ_nil by lia. done.
Qed.

Lemma drop_ship_of_one_cell_witness :
  BattleShipsQuantityValidator.drop_ship [] 42 (-7) 1 [] = (Ok true, []).
Proof. apply (drop_ship_of_one_cell [] [] 42 (-7) 1). lia. Defined.

(** ** The assignments *)

Lemma for_each_app {S A} (xs ys : list A) (body : A → M S unit) (s : S) :
  for_each (xs ++ ys) body s =
  match for_each xs body s with
  | (Ok _, s') => for_each ys body s'
  | (Raise e, s') => (Raise e, s')
  end.
Proof.
  revert s. induction xs as [|x xs IH]; intros s; [done|].
  simpl. unfold mbind, m_mbind, m_bind.
  destruct (body x s) as [[[]|e] s']; [apply IH|done].
Qed.

(** Assigning along an axis from a cell of the board, to cells that reach
    the border and go on: the cells on the board are cleared, then the
    assignment to the first cell beyond raises. *)
Lemma drop_cells_past_the_border (b : list nat) (a : FleetCounter.axis)
    (i j L n : Z) (h : list (list Z)) :
  shape10 h b → 0 ≤ i < 10 → 0 ≤ j < 10 → 1 ≤ n < L →
  (∀ k, 1 ≤ k < n →
     on_board (FleetCounter.offset a i j k).1 (FleetCounter.offset a i j k).2 = true) →
  (FleetCounter.offset a i j n).1 = 10 ∨ (FleetCounter.offset a i j n).2 = 10 →
  for_each (range 1 L)
    (λ k, write_cell b (FleetCounter.offset a i j k).1 (FleetCounter.offset a i j k).2 0) h
  = (Raise IndexError, FleetCounter.clear b a i j n h).
Proof.
  intros Hs Hi Hj Hn Hon Hedge. unfold range.
  replace (L - 1) with ((n - 1) + (L - n)) by lia.
  rewrite seqZ_app by lia. rewrite for_each_app.
  destruct (drop_cells_eq b a i j (seqZ 1 (n - 1)) h Hs) as [-> Hs'].
  { apply Forall_forall. intros k Hk%elem_of_seqZ. apply Hon. lia. }
  fold (range 1 n). fold (FleetCounter.clear b a i j n h).
  fold (FleetCounter.clear b a i j n h) in Hs'.
  rewrite seqZ_cons by lia. simpl.
  replace (1 + (n - 1)) with n by lia.
  unfold mbind, m_mbind, m_bind.
  assert (write_cell b (FleetCounter.offset a i j n).1 (FleetCounter.offset a i j n).2 0
            (FleetCounter.clear b a i j n h)
          = (Raise IndexError, FleetCounter.clear b a i j n h)) as ->; [|done].
  unfold write_cell.
  assert (length b = 10%nat) as Hlen by apply Hs.
  destruct a; simpl in *.
  - destruct Hedge as [->|Hj']; [|lia].
    unfold getitem. rewrite Hlen. done.
  - destruct Hedge as [Hi2| ->]; [lia|].
    rewrite getitem_in_range by lia.
    unfold setitem.
    rewrite (shape10_row (FleetCounter.clear b FleetCounter.Horizontal i j n h) b i Hs' Hi).
    done.
Qed.

(** X8.  [drop_vertically] and [drop_horizontally] check no bound.  Called
    at a cell of a 10x10 board with a length that reaches past the last row
    (column), they clear the cells up to the border and then raise
    [IndexError], which leaves the board partly cleared; [drop_ship] calls
    them only after the extension test, which fails in that case. *)
Theorem drop_past_the_border (h : list (list Z)) (b : list nat) (i j L : Z) :
  shape10 h b → 0 ≤ i < 10 → 0 ≤ j < 10 →
  (10 < i + L →
     BattleShipsQuantityValidator.drop_vertically b i j L h
     = (Raise IndexError, FleetCounter.clear b FleetCounter.Vertical i j (10 - i) h))
  ∧ (10 < j + L →
     BattleShipsQuantityValidator.drop_horizontally b i j L h
     = (Raise IndexError, FleetCounter.clear b FleetCounter.Horizontal i j (10 - j) h)).
Proof.
  intros Hs Hi Hj. split; intros HL.
  - apply (drop_cells_past_the_border b FleetCounter.Vertical i j L (10 - i) h);
      try done; [lia| |left; simpl; lia].
    intros k Hk. apply on_board_spec. simpl. lia.
  - apply (drop_cells_past_the_border b FleetCounter.Horizontal i j L (10 - j) h);
      try done; [lia| |right; simpl; lia].
    intros k Hk. apply on_board_spec. simpl. lia.
Qed.

Lemma drop_past_the_border_witness :
  (10 < 7 + 4 →
     BattleShipsQuantityValidator.drop_vertically ten_rows 7 7 4 legal_fleet
     = (Raise IndexError,
        FleetCounter.clear ten_rows FleetCounter.Vertical 7 7 (10 - 7) legal_fleet))
  ∧ (10 < 7 + 4 →
     BattleShipsQuantityValidator.drop_horizontally ten_rows 7 7 4 legal_fleet
     = (Raise IndexError,
        FleetCounter.clear ten_rows FleetCounter.Horizontal 7 7 (10 - 7) legal_fleet)).
Proof.
  apply (drop_past_the_border legal_fleet ten_rows 7 7 4).
  - apply shape10_ten_rows; [reflexivity|]. repeat constructor.
  - lia.
  - lia.
Defined.

(** X9.  A failed attempt changes nothing.  On a 10x10 board [drop_ship]
    (hence [drop_flagman], [drop_cruiser] and [drop_destroyer], which are
    [drop_ship] at the lengths 4, 3 and 2) returns a boolean and leaves a
    10x10 board; when the boolean is [False] the store is the one it was
    called in, so the next, shorter attempt of [validate] sees the board
    untouched. *)
Theorem failed_drop_changes_nothing (h : list (list Z)) (b : list nat) (i j L : Z) :
  shape10 h b →
  ∃ r h', BattleShipsQuantityValidator.drop_ship b i j L h = (Ok r, h')
    ∧ shape10 h' b
    ∧ (r = false → h' = h)
    ∧ BattleShipsQuantityValidator.drop_flagman b i j
      = BattleShipsQuantityValidator.drop_ship b i j 4
    ∧ BattleShipsQuantityValidator.drop_cruiser b i j
      = BattleShipsQuantityValidator.drop_ship b i j 3
    ∧ BattleShipsQuantityValidator.drop_destroyer b i j
      = BattleShipsQuantityValidator.drop_ship b i j 2.
Proof.
  intros Hs. destruct (drop_ship_eq b h i j L Hs) as [-> Hs'].
  eexists _, _. split_and!; try done.
  intros Hr. by apply clear_matched_no_match.
Qed.

Lemma failed_drop_changes_nothing_witness :
  ∃ r h', BattleShipsQuantityValidator.drop_ship ten_rows 0 5 3 legal_fleet = (Ok r, h')
    ∧ shape10 h' ten_rows
    ∧ (r = false → h' = legal_fleet)
    ∧ BattleShipsQuantityValidator.drop_flagman ten_rows 0 5
      = BattleShipsQuantityValidator.drop_ship ten_rows 0 5 4
    ∧ BattleShipsQuantityValidator.drop_cruiser ten_rows 0 5
      = BattleShipsQuantityValidator.drop_ship ten_rows 0 5 3
    ∧ BattleShipsQuantityValidator.drop_destroyer ten_rows 0 5
      = BattleShipsQuantityValidator.drop_ship ten_rows 0 5 2.
Proof.
  apply (failed_drop_changes_nothing legal_fleet ten_rows 0 5 3).
  apply shape10_ten_rows; [reflexivity|]. repeat constructor.
Defined.

(** ** The working copy *)

(** X10.  The constructor of the fleet counter works on a deep copy.  For a
    board whose rows are objects of the store, [__init__] returns without
    raising; the store is the old one with new objects added after it; the
    validator's board is made of new objects only and denotes the matrix the
    caller's board denotes, which the caller's board still denotes; two row
    positions of the copy hold one object exactly when they do in the
    caller's board; and the tally starts at 4, 3, 2, 1 for the lengths 1, 2,
    3, 4. *)
Theorem init_deep_copy (field : list nat) (h : list (list Z)) :
  wf_board h field →
  ∃ b' ext,
    BattleShipsQuantityValidator.init field h
    = (Ok (b', BattleShipsQuantityValidator.initial_counts), h ++ ext)
    ∧ length b' = length field
    ∧ contents (h ++ ext) b' = contents h field
    ∧ contents (h ++ ext) field = contents h field
    ∧ Forall (λ r', (length h ≤ r' < length (h ++ ext))%nat) b'
    ∧ (∀ i i' r1 r2 r1' r2',
         field !! i = Some r1 → field !! i' = Some r2 →
         b' !! i = Some r1' → b' !! i' = Some r2' →
         (r1' = r2' ↔ r1 = r2))
    ∧ BattleShipsQuantityValidator.initial_counts = {[ 1 := 4; 2 := 3; 3 := 2; 4 := 1 ]}.
Proof.
  intros Hwf. pose proof (deepcopy_rows_copy_of h field Hwf) as Hcopy.
  unfold BattleShipsQuantityValidator.init, deepcopy.
  unfold mbind, m_mbind, m_bind, mret, m_ret.
  destruct (deepcopy_rows ∅ field h) as [b' h'] eqn:E. cbn [fst snd] in *.
  destruct Hcopy as [[ext ->] Hlen Hfresh Hc Halias].
  exists b', ext. split_and!; try done.
  by apply contents_app.
Qed.

Lemma init_deep_copy_witness :
  ∃ b' ext,
    BattleShipsQuantityValidator.init shared_field shared_store
    = (Ok (b', BattleShipsQuantityValidator.initial_counts), shared_store ++ ext)
    ∧ length b' = length shared_field
    ∧ contents (shared_store ++ ext) b' = contents shared_store shared_field
    ∧ contents (shared_store ++ ext) shared_field = contents shared_store shared_field
    ∧ Forall (λ r', (length shared_store ≤ r' < length (shared_store ++ ext))%nat) b'
    ∧ (∀ i i' r1 r2 r1' r2',
         shared_field !! i = Some r1 → shared_field !! i' = Some r2 →
         b' !! i = Some r1' → b' !! i' = Some r2' →
         (r1' = r2' ↔ r1 = r2))
    ∧ BattleShipsQuantityValidator.initial_counts = {[ 1 := 4; 2 := 3; 3 := 2; 4 := 1 ]}.
Proof.
  apply (init_deep_copy shared_field shared_store).
  unfold wf_board, shared_field, shared_store. simpl. repeat constructor.
Defined.

(** X11.  The fleet counter only ever clears cells.  Run on a 10x10 working
    copy, [validate] returns [True] or raises [ValueError] ("Ships are
    incorrect"), and nothing else: no [IndexError], no [KeyError].  It ends in
    a store of the same size in which the board is still 10x10 and every cell
    holds the value it held or 0. *)
Theorem fleet_counter_only_clears (h : list (list Z)) (b : list nat) :
  shape10 h b →
  ∃ r h' d',
    BattleShipsQuantityValidator.validate b (h, BattleShipsQuantityValidator.initial_counts)
    = (r, (h', d'))
    ∧ (r = Ok true ∨ r = Raise (ValueError "Ships are incorrect"))
    ∧ shape10 h' b
    ∧ length h' = length h
    ∧ ∀ i j, 0 ≤ i < 10 → 0 ≤ j < 10 →
        cell_at h' b i j = cell_at h b i j ∨ cell_at h' b i j = 0.
Proof.
  intros Hs. rewrite quantity_validate_eq by done.
  unfold FleetCounter.validate. cbv zeta. cbn [fst snd].
  pose proof (scan_length b (h, FleetCounter.expected)) as Hlen.
  pose proof (scan_preserves b
    (λ h', shape10 h' b ∧ ∀ i j, 0 ≤ i < 10 → 0 ≤ j < 10 →
             cell_at h' b i j = cell_at h b i j ∨ cell_at h' b i j = 0)) as Hp.
  specialize (Hp ltac:(
    intros h0 i j [Hi Hj]%on_board_spec [Hs0 Hc]; split; [by apply store_cell_shape|];
    intros i' j' Hi' Hj'; rewrite cell_at_store_cell by done;
    destruct (decide _); [by right|by apply Hc])).
  specialize (Hp (h, FleetCounter.expected) ltac:(split; [done|by left])).
  generalize dependent (FleetCounter.scan b (h, FleetCounter.expected)).
  intros [h' d'] Hlen [Hs' Hc]. cbn [fst snd] in *.
  eexists _, h', d'. split_and!; [reflexivity| |done..].
  destruct (FleetCounter.complete d'); [by left|by right].
Qed.

Lemma fleet_counter_only_clears_witness :
  ∃ r h' d',
    BattleShipsQuantityValidator.validate ten_rows
      (legal_fleet, BattleShipsQuantityValidator.initial_counts)
    = (r, (h', d'))
    ∧ (r = Ok true ∨ r = Raise (ValueError "Ships are incorrect"))
    ∧ shape10 h' ten_rows
    ∧ length h' = length legal_fleet
    ∧ ∀ i j, 0 ≤ i < 10 → 0 ≤ j < 10 →
        cell_at h' ten_rows i j = cell_at legal_fleet ten_rows i j
        ∨ cell_at h' ten_rows i j = 0.
Proof.
  apply (fleet_counter_only_clears legal_fleet ten_rows).
  apply shape10_ten_rows; [reflexivity|]. repeat constructor.
Defined.

(** ** The empty board *)

Lemma foldl_fixed {A B} (f : A → B → A) (s : A) (xs : list B) :
  (∀ x, f s x = s) → foldl f s xs = s.
Proof.
  intros Hf. induction xs as [|x xs IH]; [done|]. simpl. by rewrite Hf.
Qed.

(** With no occupied cell the scan does nothing. *)
Lemma scan_nothing (b : list nat) (h : list (list Z)) (d : gmap Z Z) :
  (∀ i j, occupied h b i j = false) → FleetCounter.scan b (h, d) = (h, d).
Proof.
  intros Hempty. unfold FleetCounter.scan, FleetCounter.scan_row.
  apply foldl_fixed. intros i. apply foldl_fixed. intros j.
  unfold FleetCounter.step. cbn [fst]. by rewrite Hempty.
Qed.

(** X12.  A 10x10 board with no occupied cell passes the shape check and the
    contact check and is rejected by the fleet counter: the result is
    [False], the message logged is "Ships are incorrect", and the store has
    grown by the counter's working copy. *)
Theorem empty_board_is_rejected (field : list nat) (h : list (list Z))
    (log : list string) :
  shape10 h field →
  (∀ i j, 0 ≤ i < 10 → 0 ≤ j < 10 → cell_at h field i j = 0) →
  BoardValidator.validate h field = Ok true
  ∧ BattleShipsValidator.validate h field = Ok true
  ∧ ∃ ext, validate_battlefield field (h, log)
           = (Ok false, (h ++ ext, log ++ ["Ships are incorrect"])).
Proof.
  intros Hs Hzero.
  assert (∀ i j, status h field i j = 0) as Hst.
  { intros i j. unfold status. destruct (on_board i j) eqn:E; [|done].
    apply on_board_spec in E as [Hi Hj]. by apply Hzero. }
  assert (BattleShipsValidator.validate h field = Ok true) as Hc.
  { apply contact_validate_ok; [done|]. intros i j _ _.
    unfold cell_ok, occupied. by rewrite Hst. }
  split_and!; [by apply board_validate_shape|done|].
  rewrite validate_battlefield_fleet by done. cbv zeta.
  pose proof (deepcopy_rows_copy_of h field (shape10_wf _ _ Hs)) as Hcopy.
  destruct (deepcopy_rows ∅ field h) as [b' h'] eqn:E. cbn [fst snd] in *.
  rewrite scan_nothing.
  - destruct (copy_heap _ _ _ _ Hcopy) as [ext ->]. exists ext. done.
  - intros i j. unfold occupied.
    rewrite (status_contents_eq h h' field b') by (done || apply Hcopy).
    by rewrite Hst.
Qed.

Lemma empty_board_is_rejected_witness :
  BoardValidator.validate (replicate 10 empty_row) ten_rows = Ok true
  ∧ BattleShipsValidator.validate (replicate 10 empty_row) ten_rows = Ok true
  ∧ ∃ ext, validate_battlefield ten_rows (replicate 10 empty_row, [])
           = (Ok false, (replicate 10 empty_row ++ ext, [] ++ ["Ships are incorrect"])).
Proof.
  apply (empty_board_is_rejected ten_rows (replicate 10 empty_row) []).
  - apply shape10_ten_rows; [reflexivity|]. repeat constructor.
  - intros i j Hi Hj.
    assert (i = 0 ∨ i = 1 ∨ i = 2 ∨ i = 3 ∨ i = 4 ∨ i = 5 ∨ i = 6 ∨ i = 7 ∨ i = 8 ∨ i = 9)
      as Hi' by lia.
    assert (j = 0 ∨ j = 1 ∨ j = 2 ∨ j = 3 ∨ j = 4 ∨ j = 5 ∨ j = 6 ∨ j = 7 ∨ j = 8 ∨ j = 9)
      as Hj' by lia.
    destruct Hi' as [->|[->|[->|[->|[->|[->|[->|[->|[->| ->]]]]]]]]];
      destruct Hj' as [->|[->|[->|[->|[->|[->|[->|[->|[->| ->]]]]]]]]]; reflexivity.
Defined.

(** ** What an assignment reaches *)

(** Clearing cells of the board, whatever rows share an object: a cell is
    cleared when it is in the column assigned to and its row is the object
    of a row assigned to. *)
Lemma cell_at_clear_shared (b : list nat) (a : FleetCounter.axis) (i j : Z)
    (ks : list Z) (h : list (list Z)) (i' j' : Z) :
  shape10 h b → 0 ≤ i' < 10 → 0 ≤ j' < 10 →
  Forall (λ k, on_board (FleetCounter.offset a i j k).1
                 (FleetCounter.offset a i j k).2 = true) ks →
  cell_at (foldl (λ h' k, store_cell h' b (FleetCounter.offset a i j k).1
                            (FleetCounter.offset a i j k).2 0) h ks) b i' j'
  = if existsb (λ k, bool_decide (b !!! Z.to_nat i'
                                  = b !!! Z.to_nat (FleetCounter.offset a i j k).1)
                     && ((FleetCounter.offset a i j k).2 =? j')) ks
    then 0 else cell_at h b i' j'.
Proof.
  intros Hs Hi' Hj' Hks. revert h Hs.
  induction Hks as [|k ks Hk _ IH]; intros h Hs; [done|].
  apply on_board_spec in Hk as [Hi Hj].
  simpl. rewrite IH by by apply store_cell_shape.
  destruct (existsb _ ks); [by rewrite orb_true_r|]. rewrite orb_false_r.
  rewrite cell_at_store_cell by done.
  destruct (decide _) as [[Hr ->]|Hne].
  - by rewrite bool_decide_eq_true_2, Z.eqb_refl.
  - destruct (bool_decide _) eqn:E1; [|done].
    destruct (_ =? j') eqn:E2; [|done].
    apply bool_decide_eq_true in E1. apply Z.eqb_eq in E2.
    exfalso. apply Hne. done.
Qed.

Lemma existsb_and_r {A} (f : A → bool) (c : bool) (xs : list A) :
  existsb (λ x, f x && c) xs = existsb f xs && c.
Proof.
  induction xs as [|x xs IH]; [done|]. simpl. rewrite IH.
  destruct (f x), c, (existsb f xs); done.
Qed.

(** X13.  What [drop_vertically] and [drop_horizontally] change, on a 10x10
    board and for a ship that lies on the board.  They return without
    raising and leave a 10x10 board.  [drop_vertically] puts 0 in column [j]
    of every row of the board that is the same list object as one of the
    rows [i + 1 .. i + length - 1]; [drop_horizontally] puts 0 in the columns
    [j + 1 .. j + length - 1] of every row that is the same object as row
    [i].  Every other cell keeps its value; on a board of ten separate rows
    the cells cleared are the [length - 1] trailing cells and no other. *)
Theorem drop_reaches_shared_rows (h : list (list Z)) (b : list nat) (i j L : Z) :
  shape10 h b → 0 ≤ i → 0 ≤ j →
  (i + L ≤ 10 → j < 10 →
     ∃ h', BattleShipsQuantityValidator.drop_vertically b i j L h = (Ok tt, h')
       ∧ shape10 h' b
       ∧ ∀ i' j', 0 ≤ i' < 10 → 0 ≤ j' < 10 →
           cell_at h' b i' j' =
           if existsb (λ k, bool_decide (b !!! Z.to_nat i' = b !!! Z.to_nat (i + k)))
                (range 1 L) && (j' =? j)
           then 0 else cell_at h b i' j')
  ∧ (j + L ≤ 10 → i < 10 →
     ∃ h', BattleShipsQuantityValidator.drop_horizontally b i j L h = (Ok tt, h')
       ∧ shape10 h' b
       ∧ ∀ i' j', 0 ≤ i' < 10 → 0 ≤ j' < 10 →
           cell_at h' b i' j' =
           if bool_decide (b !!! Z.to_nat i' = b !!! Z.to_nat i)
              && (j <? j') && (j' <? j + L)
           then 0 else cell_at h b i' j').
Proof.
  intros Hs Hi Hj. split; intros HL Hlt.
  - assert (Forall (λ k, on_board (FleetCounter.offset FleetCounter.Vertical i j k).1
                           (FleetCounter.offset FleetCounter.Vertical i j k).2 = true)
              (range 1 L)) as Hks.
    { apply Forall_forall. intros k Hk%elem_of_range. apply on_board_spec. simpl. lia. }
    destruct (drop_cells_eq b FleetCounter.Vertical i j (range 1 L) h Hs Hks) as [Heq Hs'].
    eexists. split_and!; [exact Heq|exact Hs'|].
    intros i' j' Hi' Hj'. rewrite cell_at_clear_shared by done. simpl.
    rewrite (existsb_and_r
      (λ k, bool_decide (b !!! Z.to_nat i' = b !!! Z.to_nat (i + k))) (j =? j')).
    by rewrite (Z.eqb_sym j j').
  - assert (Forall (λ k, on_board (FleetCounter.offset FleetCounter.Horizontal i j k).1
                           (FleetCounter.offset FleetCounter.Horizontal i j k).2 = true)
              (range 1 L)) as Hks.
    { apply Forall_forall. intros k Hk%elem_of_range. apply on_board_spec. simpl. lia. }
    destruct (drop_cells_eq b FleetCounter.Horizontal i j (range 1 L) h Hs Hks) as [Heq Hs'].
    eexists. split_and!; [exact Heq|exact Hs'|].
    intros i' j' Hi' Hj'. rewrite cell_at_clear_shared by done. simpl.
    match goal with |- (if ?x then _ else _) = (if ?y then _ else _) =>
      assert (x = y) as ->; [|done] end.
    apply eq_true_iff_eq. rewrite existsb_exists.
    rewrite !andb_true_iff, !Z.ltb_lt. split.
    + intros (k & Hk%list_elem_of_In%elem_of_range & [Hb Hk']%andb_true_iff).
      apply Z.eqb_eq in Hk'. split_and!; [done|lia|lia].
    + intros [[Hb ?] ?]. exists (j' - j). split.
      * apply list_elem_of_In, elem_of_range. lia.
      * rewrite Hb. simpl. apply Z.eqb_eq. lia.
Qed.

(** The three-cell ship of the first row of [shared_store], a row that is
    also the third row of the board. *)
Lemma drop_reaches_shared_rows_witness :
  (0 + 3 ≤ 10 → 0 < 10 →
     ∃ h', BattleShipsQuantityValidator.drop_vertically shared_field 0 0 3 shared_store
           = (Ok tt, h')
       ∧ shape10 h' shared_field
       ∧ ∀ i' j', 0 ≤ i' < 10 → 0 ≤ j' < 10 →
           cell_at h' shared_field i' j' =
           if existsb (λ k, bool_decide (shared_field !!! Z.to_nat i'
                                         = shared_field !!! Z.to_nat (0 + k)))
                (range 1 3) && (j' =? 0)
           then 0 else cell_at shared_store shared_field i' j')
  ∧ (0 + 3 ≤ 10 → 0 < 10 →
     ∃ h', BattleShipsQuantityValidator.drop_horizontally shared_field 0 0 3 shared_store
           = (Ok tt, h')
       ∧ shape10 h' shared_field
       ∧ ∀ i' j', 0 ≤ i' < 10 → 0 ≤ j' < 10 →
           cell_at h' shared_field i' j' =
           if bool_decide (shared_field !!! Z.to_nat i' = shared_field !!! Z.to_nat 0)
              && (0 <? j') && (j' <? 0 + 3)
           then 0 else cell_at shared_store shared_field i' j').
Proof.
  apply (drop_reaches_shared_rows shared_store shared_field 0 0 3).
  - split; [reflexivity|]. unfold shared_field, shared_store. repeat constructor.
  - lia.
  - lia.
Defined.

(** ** The messages of the shape check *)

(** X14.  The shape check looks at the number of rows first.  A board that
    does not have 10 rows, the empty board included, raises "Board has wrong
    columns count" whatever its rows are; a board of 10 rows one of which
    does not have 10 cells raises "Column has wrong rows count". *)
Theorem shape_check_messages (h : list (list Z)) (b : list nat) :
  (length b ≠ 10%nat →
     BoardValidator.validate h b = Raise (ValueError "Board has wrong columns count"))
  ∧ (length b = 10%nat → ¬ Forall (λ r, length (h !!! r) = 10%nat) b →
     BoardValidator.validate h b = Raise (ValueError "Column has wrong rows count"))
  ∧ BoardValidator.validate h [] = Raise (ValueError "Board has wrong columns count").
Proof.
  split_and!; [| |done].
  - intros Hlen. unfold BoardValidator.validate, board_length.
    destruct (Z.eqb_spec (Z.of_nat (length b)) 10) as [?|_]; [lia|done].
  - intros Hlen Hrows.
    assert (¬ shape10 h b) as Hn by (intros [_ ?]; done).
    destruct (board_validate_not_shape h b Hn) as [Hv|Hv]; [|done].
    exfalso. revert Hv. unfold BoardValidator.validate, board_length.
    rewrite Hlen. simpl. unfold mbind, res_mbind, res_bind.
    destruct (res_for_each b _) as [[]|e] eqn:E; [done|].
    intros [= ->]. clear Hrows Hn Hlen.
    induction b as [|r b IH]; simpl in E; [done|].
    unfold mbind, res_mbind, res_bind in E.
    destruct (negb _); [done|]. by apply IH.
Qed.
